(** * knex-row: rows and query helpers over a query-builder connection

    A shallow embedding of [src/row.ts], [src/query.ts] and
    [src/connection.ts].

    - JavaScript values are a small tagged union; numbers are kept as
      integers (page numbers, limits, identifiers, scores), on which the
      arithmetic of the code is exact up to [2 ^ 53].
    - An object used as a record of columns is a plain object: the ordered
      list of its own properties, in the order [Object.keys] enumerates
      them, over [Object.prototype], whose properties a read falls back
      on. A write makes an own property; the accessor [__proto__] is
      written like any other name.
    - [async] functions are state transformers over the outside world (the
      database behind the connection and the log of awaited queries) that
      end in [Ok] (resolved) or [Err] (rejected).
    - The query builder is the external collaborator: a query is the
      connection and table it was created for and the statements chained
      on it so far; executing it is a parameter of the development. A
      [before] hook, and the builder's [offset] on a negative number, may
      throw before anything is awaited. *)

From Stdlib Require Import String List ZArith NArith Bool Lia DecimalString.
Import ListNotations.
Open Scope string_scope.

(* ================================================================== *)
(** * JavaScript values *)

(** [type Connection = Knex | Knex.Transaction]; the number is the identity
    of the object. *)
Inductive Connection : Type :=
| Knex (id : nat)
| Transaction (id : nat).

Inductive JsValue : Type :=
| VUndefined
| VNull
| VBool (b : bool)
| VNum (n : Z)
| VStr (s : string)
| VDate (t : Z)
| VRaw (sql : string)
| VConn (c : Connection)
| VFunction (name : string)
| VObjectPrototype.

(** [VFunction] is a built-in function, known by its name, and
    [VObjectPrototype] the object [Object.prototype]. *)

(** The [typeof] operator. A connection is a callable object. *)
Definition typeof (v : JsValue) : string :=
  match v with
  | VUndefined => "undefined"
  | VNull => "object"
  | VBool _ => "boolean"
  | VNum _ => "number"
  | VStr _ => "string"
  | VDate _ => "object"
  | VRaw _ => "object"
  | VConn _ => "function"
  | VFunction _ => "function"
  | VObjectPrototype => "object"
  end.

(** [ToBoolean]: what [Boolean(v)], [!v], [v || w] and [if (v)] look at. *)
Definition truthy (v : JsValue) : bool :=
  match v with
  | VUndefined | VNull => false
  | VBool b => b
  | VNum n => negb (n =? 0)%Z
  | VStr s => negb (s =? "")
  | VDate _ | VRaw _ | VConn _ | VFunction _ | VObjectPrototype => true
  end.

(** [a || b] *)
Definition js_or (a b : JsValue) : JsValue := if truthy a then a else b.

Definition conn_eqb (a b : Connection) : bool :=
  match a, b with
  | Knex i, Knex j => Nat.eqb i j
  | Transaction i, Transaction j => Nat.eqb i j
  | _, _ => false
  end.

(** [a === b] on the values above (objects compare by identity; two dates
    or raw expressions are identified with their contents). *)
Definition value_eqb (a b : JsValue) : bool :=
  match a, b with
  | VUndefined, VUndefined => true
  | VNull, VNull => true
  | VBool x, VBool y => Bool.eqb x y
  | VNum x, VNum y => (x =? y)%Z
  | VStr x, VStr y => (x =? y)
  | VDate x, VDate y => (x =? y)%Z
  | VRaw x, VRaw y => (x =? y)
  | VConn x, VConn y => conn_eqb x y
  | VFunction x, VFunction y => (x =? y)
  | VObjectPrototype, VObjectPrototype => true
  | _, _ => false
  end.

(* ================================================================== *)
(** * Objects as ordered property lists *)

(** [interface RowData { [key: string]: RowValue }] *)
Definition JsObject : Type := list (string * JsValue).
Definition RowData : Type := JsObject.

(** The own property named [k]: its value, [undefined] when there is none. *)
Fixpoint obj_own (o : JsObject) (k : string) : JsValue :=
  match o with
  | [] => VUndefined
  | (k', v) :: rest => if k' =? k then v else obj_own rest k
  end.

(** [k] is an own property of [o]. *)
Definition obj_has (o : JsObject) (k : string) : bool :=
  existsb (fun p => fst p =? k) o.

(** [Object.prototype]: what every plain object inherits. Reading
    [__proto__] gives the prototype itself. *)
Definition Object_prototype : JsObject :=
  [("constructor", VFunction "Object");
   ("__defineGetter__", VFunction "__defineGetter__");
   ("__defineSetter__", VFunction "__defineSetter__");
   ("hasOwnProperty", VFunction "hasOwnProperty");
   ("__lookupGetter__", VFunction "__lookupGetter__");
   ("__lookupSetter__", VFunction "__lookupSetter__");
   ("isPrototypeOf", VFunction "isPrototypeOf");
   ("propertyIsEnumerable", VFunction "propertyIsEnumerable");
   ("toString", VFunction "toString");
   ("valueOf", VFunction "valueOf");
   ("__proto__", VObjectPrototype);
   ("toLocaleString", VFunction "toLocaleString")].

Definition inherited (k : string) : JsValue := obj_own Object_prototype k.

(** [o[k]]: the own property named [k] when there is one, whatever its
    value, and otherwise what [Object.prototype] has under that name. *)
Fixpoint obj_get (o : JsObject) (k : string) : JsValue :=
  match o with
  | [] => inherited k
  | (k', v) :: rest => if k' =? k then v else obj_get rest k
  end.

(** An array index: the decimal writing, without sign or leading zero, of a
    number below [2 ^ 32 - 1]. Such keys are enumerated first, in
    ascending order. *)
Definition array_index (s : string) : option N :=
  match NilZero.uint_of_string s with
  | Some u =>
      let n := N.of_uint u in
      if (NilZero.string_of_uint (N.to_uint n) =? s) && (n <? 4294967295)%N
      then Some n
      else None
  | None => None
  end.

(** Overwriting the own property [k] where it stands. *)
Fixpoint obj_overwrite (o : JsObject) (k : string) (v : JsValue) : JsObject :=
  match o with
  | [] => []
  | (k', v') :: rest =>
      if k' =? k then (k', v) :: rest else (k', v') :: obj_overwrite rest k v
  end.

(** Creating the array-index property [k], of index [n], at its place
    among the array indices. *)
Fixpoint obj_create_index (o : JsObject) (k : string) (n : N) (v : JsValue)
  : JsObject :=
  match o with
  | [] => [(k, v)]
  | (k', v') :: rest =>
      match array_index k' with
      | Some m =>
          if (m <? n)%N then (k', v') :: obj_create_index rest k n v
          else (k, v) :: o
      | None => (k, v) :: o
      end
  end.

(** [o[k] = v]: overwrite the own property where it stands, or create it:
    an array index at its place, any other name at the end. *)
Definition obj_set (o : JsObject) (k : string) (v : JsValue) : JsObject :=
  if obj_has o k then obj_overwrite o k v
  else
    match array_index k with
    | Some n => obj_create_index o k n v
    | None => (o ++ [(k, v)])%list
    end.

(** [Object.keys(o)] *)
Definition obj_keys (o : JsObject) : list string := map fst o.

(** [Object.assign(target, source)]: every property of [source], in order,
    is written to [target]. *)
Fixpoint obj_assign (target source : JsObject) : JsObject :=
  match source with
  | [] => target
  | (k, v) :: rest => obj_assign (obj_set target k v) rest
  end.

(* ================================================================== *)
(** * Completions *)

Inductive Error : Type :=
| JsError (msg : string)        (* [throw new Error(msg)] *)
| TypeError                     (* raised by the runtime: not callable, not iterable, ... *)
| Rejected (reason : string).   (* a rejection passed through from the connection *)

Inductive Result (A : Type) : Type :=
| Ok (a : A)
| Err (e : Error).
Arguments Ok {A} a.
Arguments Err {A} e.

(** [`Column '${col}' does not exist for table ${tableName}`] *)
Definition column_not_found (col tableName : string) : string :=
  "Column '" ++ col ++ "' does not exist for table " ++ tableName.

(* ================================================================== *)
(** * row.ts *)

Definition ID_COL : string := "id".
Definition TIME_CREATED_COL : string := "time_created".
Definition TIME_UPDATED_COL : string := "time_updated".
Definition TIME_DELETED_COL : string := "time_deleted".

Record Row : Type := mkRow {
  initialConn : Connection;
  primaryCols : list string;
  tableName : string;
  rowData : RowData;
  idCol : string;
  timeCreatedCol : string;
  timeUpdatedCol : string;
  timeDeletedCol : string;
  conn : JsValue
}.

(** The constructor's options; [None] is an omitted property. *)
Record RowOpts : Type := mkRowOpts {
  ro_conn : Connection;
  ro_tableName : string;
  ro_rowData : RowData;
  ro_idCol : option string;
  ro_timeCreatedCol : option string;
  ro_timeUpdatedCol : option string;
  ro_timeDeletedCol : option string;
  ro_primaryCols : option (list string)
}.

(** A destructuring default: [x = d]. *)
Definition default {A : Type} (x : option A) (d : A) : A :=
  match x with
  | Some a => a
  | None => d
  end.

Definition new_Row (opts : RowOpts) : Row :=
  let idCol := default (ro_idCol opts) ID_COL in
  let timeCreatedCol := default (ro_timeCreatedCol opts) TIME_CREATED_COL in
  let timeUpdatedCol := default (ro_timeUpdatedCol opts) TIME_UPDATED_COL in
  let timeDeletedCol := default (ro_timeDeletedCol opts) TIME_DELETED_COL in
  let primaryCols := default (ro_primaryCols opts) [idCol] in
  {| initialConn := ro_conn opts;
     conn := VConn (ro_conn opts);
     tableName := ro_tableName opts;
     rowData := ro_rowData opts;
     idCol := idCol;
     timeCreatedCol := timeCreatedCol;
     timeUpdatedCol := timeUpdatedCol;
     timeDeletedCol := timeDeletedCol;
     primaryCols := primaryCols |}.

(** Field updates: [this.conn = v] and the in-place change of the object
    behind [this.rowData]. *)
Definition with_conn (r : Row) (v : JsValue) : Row :=
  {| initialConn := initialConn r; primaryCols := primaryCols r;
     tableName := tableName r; rowData := rowData r; idCol := idCol r;
     timeCreatedCol := timeCreatedCol r; timeUpdatedCol := timeUpdatedCol r;
     timeDeletedCol := timeDeletedCol r; conn := v |}.

Definition with_rowData (r : Row) (d : RowData) : Row :=
  {| initialConn := initialConn r; primaryCols := primaryCols r;
     tableName := tableName r; rowData := d; idCol := idCol r;
     timeCreatedCol := timeCreatedCol r; timeUpdatedCol := timeUpdatedCol r;
     timeDeletedCol := timeDeletedCol r; conn := conn r |}.

(** [get connection()] *)
Definition connection (r : Row) : JsValue := conn r.

(** [set connection(value)]: [this.conn = value || this.initialConn] *)
Definition set_connection (r : Row) (value : JsValue) : Row :=
  with_conn r (js_or value (VConn (initialConn r))).

(** A run of assignments [row.connection = v1; row.connection = v2; ...]. *)
Definition assign_connections (r : Row) (values : list JsValue) : Row :=
  fold_left set_connection values r.

(** [isColumn(col)]: [typeof this.rowData[col] !== "undefined"] *)
Definition isColumn (r : Row) (col : string) : bool :=
  negb (typeof (obj_get (rowData r) col) =? "undefined").

(** [getColumn(col)] *)
Definition getColumn (r : Row) (col : string) : Result JsValue :=
  if negb (isColumn r col)
  then Err (JsError (column_not_found col (tableName r)))
  else Ok (obj_get (rowData r) col).

Definition id (r : Row) : Result JsValue := getColumn r (idCol r).
Definition timeCreated (r : Row) : Result JsValue := getColumn r (timeCreatedCol r).
Definition timeUpdated (r : Row) : Result JsValue := getColumn r (timeUpdatedCol r).
Definition timeDeleted (r : Row) : Result JsValue := getColumn r (timeDeletedCol r).

(** The loop of [get primaryKey()]: [key[col] = this.getColumn(col)] for
    each primary column, in order. *)
Fixpoint primaryKey_loop (r : Row) (cols : list string) (key : JsObject)
  : Result JsObject :=
  match cols with
  | [] => Ok key
  | col :: rest =>
      match getColumn r col with
      | Ok v => primaryKey_loop r rest (obj_set key col v)
      | Err e => Err e
      end
  end.

Definition primaryKey (r : Row) : Result JsObject :=
  primaryKey_loop r (primaryCols r) [].

(** [get isDeleted()]: [Boolean(this.timeDeleted)] *)
Definition isDeleted (r : Row) : Result bool :=
  match timeDeleted r with
  | Ok v => Ok (truthy v)
  | Err e => Err e
  end.

(* ================================================================== *)
(** * The query builder *)

(** A [where] callback is only ever handed to the builder, which groups the
    condition it expresses; it is kept as that condition on a record. *)
Definition QueryFunction : Type := JsObject -> bool.

Inductive Stmt : Type :=
| SWhereFn (f : QueryFunction)               (* [.where(callback)] *)
| SWhereObj (key : JsObject)                 (* [.where({col: value, ...})] *)
| SWhereNull (col : string)                  (* [.whereNull(col)] *)
| SLimit (n : Z)                             (* [.limit(n)] *)
| SOffset (n : Z)                            (* [.offset(n)] *)
| SCount (alias : string) (cols : list string) (* [.count({alias: cols})] *)
| SUpdate (data : JsObject)                  (* [.update(data)] *)
| SDelete.                                   (* [.delete()] *)

Record Query : Type := mkQuery {
  qConn : Connection;
  qTable : string;
  qStmts : list Stmt
}.

(** [conn(tableName)] *)
Definition from_table (c : Connection) (tableName : string) : Query :=
  {| qConn := c; qTable := tableName; qStmts := [] |}.

(** A chained builder call records its statement. *)
Definition chain (q : Query) (s : Stmt) : Query :=
  {| qConn := qConn q; qTable := qTable q; qStmts := qStmts q ++ [s] |}.

(** [conn.fn.now()]: the expression for the server's current time. *)
Definition fn_now (c : Connection) : JsValue := VRaw "CURRENT_TIMESTAMP".

(** [get query()]: [this.connection(this.tableName).where(this.primaryKey)];
    the call of the connection comes first, then the primary key is read. *)
Definition query (r : Row) : Result Query :=
  match connection r with
  | VConn c =>
      match primaryKey r with
      | Ok key => Ok (chain (from_table c (tableName r)) (SWhereObj key))
      | Err e => Err e
      end
  | _ => Err TypeError
  end.

(** The loop that opens [setColumns]. *)
Fixpoint check_columns (r : Row) (keys : list string) : Result unit :=
  match keys with
  | [] => Ok tt
  | key :: rest =>
      if negb (isColumn r key)
      then Err (JsError (column_not_found key (tableName r)))
      else check_columns r rest
  end.

(** What an awaited query resolves to: an array of records, or a number
    (rows affected). *)
Inductive Response : Type :=
| RespRows (rows : list JsObject)
| RespNum (n : Z).

(** The world outside: the database behind the connections and the queries
    awaited so far. *)
Record World (DB : Type) : Type := mkWorld {
  db : DB;
  issued : list Query
}.
Arguments mkWorld {DB} db issued.
Arguments db {DB} w.
Arguments issued {DB} w.

Section Layer.

Variable DB : Type.

(** Executing a query is the collaborator's business. *)
Variable exec : Query -> DB -> Result Response * DB.

(** [await query] *)
Definition await (q : Query) (w : World DB) : Result Response * World DB :=
  let (res, d) := exec q (db w) in
  (res, {| db := d; issued := issued w ++ [q] |}).

(** ** Row mutations: the row and the world are threaded through. *)

Definition setColumns (data : JsObject) (r : Row) (w : World DB)
  : Result unit * Row * World DB :=
  match check_columns r (obj_keys data) with
  | Err e => (Err e, r, w)
  | Ok _ =>
      match query r with
      | Err e => (Err e, r, w)
      | Ok q =>
          let (res, w') := await (chain q (SUpdate data)) w in
          match res with
          | Err e => (Err e, r, w')
          | Ok _ => (Ok tt, with_rowData r (obj_assign (rowData r) data), w')
          end
      end
  end.

Definition setColumn (col : string) (value : JsValue) (r : Row) (w : World DB)
  : Result unit * Row * World DB :=
  setColumns [(col, value)] r w.

(** [delete()]: the argument [this.connection.fn.now()] is evaluated
    before [setColumns] is entered. *)
Definition delete (r : Row) (w : World DB) : Result unit * Row * World DB :=
  match connection r with
  | VConn c => setColumns [(timeDeletedCol r, fn_now c)] r w
  | _ => (Err TypeError, r, w)
  end.

Definition restore (r : Row) (w : World DB) : Result unit * Row * World DB :=
  setColumns [(timeDeletedCol r, VNull)] r w.

Definition deletePermanently (r : Row) (w : World DB)
  : Result unit * Row * World DB :=
  match query r with
  | Err e => (Err e, r, w)
  | Ok q =>
      let (res, w') := await (chain q SDelete) w in
      match res with
      | Err e => (Err e, r, w')
      | Ok _ => (Ok tt, r, w')
      end
  end.

End Layer.

(* ================================================================== *)
(** * query.ts *)

Definition DEFAULT_PAGINATION_LIMIT : Z := 20.

(** A [before] hook works on the builder it is handed, and may throw. *)
Definition Hook : Type := Query -> Result Query.

(** [interface SelectOpts extends ConnectionOpts] *)
Record SelectOpts : Type := mkSelectOpts {
  so_conn : Connection;
  so_tableName : string;
  so_where : option QueryFunction;
  so_includeDeleted : option bool;
  so_includeDeletedCol : option string;
  so_before : option Hook
}.

Record Pagination : Type := mkPagination {
  page : option Z;
  limit : option Z
}.

(** [interface FindAllOpts extends SelectOpts] *)
Record FindAllOpts : Type := mkFindAllOpts {
  fa_select : SelectOpts;
  fa_pagination : option Pagination
}.

(** [countBy?: string | string[]] *)
Inductive CountBy : Type :=
| CountCol (col : string)
| CountCols (cols : list string).

(** [interface CountAllOpts extends SelectOpts] *)
Record CountAllOpts : Type := mkCountAllOpts {
  ca_select : SelectOpts;
  ca_countBy : option CountBy
}.

(** [if (where) query.where(where)] *)
Definition add_where (where_ : option QueryFunction) (q : Query) : Query :=
  match where_ with
  | Some f => chain q (SWhereFn f)
  | None => q
  end.

(** [if (!includeDeleted) query.whereNull(includeDeletedCol)] *)
Definition add_soft_delete (includeDeleted : bool) (includeDeletedCol : string)
    (q : Query) : Query :=
  if negb includeDeleted then chain q (SWhereNull includeDeletedCol) else q.

(** The builder's [.offset(n)]: a negative number is refused on the spot,
    with an error thrown; any other is recorded. *)
Definition offset_refused : string :=
  "A non-negative integer must be provided to offset.".

Definition offset (q : Query) (n : Z) : Result Query :=
  if (n <? 0)%Z then Err (JsError offset_refused) else Ok (chain q (SOffset n)).

(** [if (pagination) query.limit(limit).offset((page - 1) * limit)] *)
Definition paginate (pagination : option Pagination) (q : Query) : Result Query :=
  match pagination with
  | Some p =>
      let limit := default (limit p) DEFAULT_PAGINATION_LIMIT in
      let page := default (page p) 1%Z in
      offset (chain q (SLimit limit)) ((page - 1) * limit)%Z
  | None => Ok q
  end.

(** [if (before) before(query)]: the hook receives the builder itself. *)
Definition run_before (before : option Hook) (q : Query) : Result Query :=
  match before with
  | Some hook => hook q
  | None => Ok q
  end.

(** [findAll] up to its [await]: the builder calls in their order, then the
    hook; whatever is thrown on the way ends the call. *)
Definition findAll_prepare (opts : FindAllOpts) : Result Query :=
  let o := fa_select opts in
  let includeDeleted := default (so_includeDeleted o) false in
  let includeDeletedCol := default (so_includeDeletedCol o) TIME_DELETED_COL in
  let query := from_table (so_conn o) (so_tableName o) in
  let query := add_where (so_where o) query in
  let query := add_soft_delete includeDeleted includeDeletedCol query in
  match paginate (fa_pagination opts) query with
  | Err e => Err e
  | Ok query => run_before (so_before o) query
  end.

(** The statements of [limit] and [offset] as chained when [offset] accepts
    its number. *)
Definition add_pagination (pagination : option Pagination) (q : Query) : Query :=
  match pagination with
  | Some p =>
      let limit := default (limit p) DEFAULT_PAGINATION_LIMIT in
      let page := default (page p) 1%Z in
      chain (chain q (SLimit limit)) (SOffset ((page - 1) * limit)%Z)
  | None => q
  end.

(** The query of [findAll] as it stands when the [before] hook is reached. *)
Definition findAll_build (opts : FindAllOpts) : Query :=
  let o := fa_select opts in
  let includeDeleted := default (so_includeDeleted o) false in
  let includeDeletedCol := default (so_includeDeletedCol o) TIME_DELETED_COL in
  let query := from_table (so_conn o) (so_tableName o) in
  let query := add_where (so_where o) query in
  let query := add_soft_delete includeDeleted includeDeletedCol query in
  add_pagination (fa_pagination opts) query.

(** The query [findAll] awaits: what the hook made of the builder, which is
    left as built when there is no hook, or when the hook throws and
    nothing is awaited. *)
Definition findAll_query (opts : FindAllOpts) : Query :=
  match run_before (so_before (fa_select opts)) (findAll_build opts) with
  | Ok q => q
  | Err _ => findAll_build opts
  end.

(** [new Row({ tableName, rowData, conn })] *)
Definition wrap_row (c : Connection) (tableName : string) (rowData : RowData) : Row :=
  new_Row {| ro_conn := c; ro_tableName := tableName; ro_rowData := rowData;
             ro_idCol := None; ro_timeCreatedCol := None;
             ro_timeUpdatedCol := None; ro_timeDeletedCol := None;
             ro_primaryCols := None |}.

(** [find] is handed a [SelectOpts]: [findAll] sees no [pagination] in it. *)
Definition of_select (opts : SelectOpts) : FindAllOpts :=
  {| fa_select := opts; fa_pagination := None |}.

(** A variable that may hold [undefined] or [null]. *)
Inductive Maybe (A : Type) : Type :=
| Undefined
| Null
| Just (a : A).
Arguments Undefined {A}.
Arguments Null {A}.
Arguments Just {A} a.

(** [const [result] = array] *)
Definition first_element {A : Type} (l : list A) : Maybe A :=
  match l with
  | [] => Undefined
  | x :: _ => Just x
  end.

(** [a ?? b] *)
Definition nullish_or {A : Type} (a b : Maybe A) : Maybe A :=
  match a with
  | Undefined | Null => b
  | Just _ => a
  end.

(** [Array.isArray(countBy) ? countBy : [countBy]] *)
Definition count_columns (countBy : CountBy) : list string :=
  match countBy with
  | CountCols cols => cols
  | CountCol col => [col]
  end.

(** The query [countAll] awaits. *)
Definition countAll_query (opts : CountAllOpts) : Query :=
  let o := ca_select opts in
  let includeDeleted := default (so_includeDeleted o) false in
  let includeDeletedCol := default (so_includeDeletedCol o) TIME_DELETED_COL in
  let countBy := default (ca_countBy opts) (CountCols [ID_COL]) in
  let query := from_table (so_conn o) (so_tableName o) in
  let query := add_where (so_where o) query in
  let query := add_soft_delete includeDeleted includeDeletedCol query in
  chain query (SCount "count" (count_columns countBy)).

(** The statements [findAll] itself chains, in the order it chains them. *)
Definition where_part (o : SelectOpts) : list Stmt :=
  match so_where o with
  | Some f => [SWhereFn f]
  | None => []
  end.

Definition soft_delete_part (o : SelectOpts) : list Stmt :=
  match so_includeDeleted o with
  | Some true => []
  | _ => [SWhereNull (default (so_includeDeletedCol o) "time_deleted")]
  end.

Definition pagination_part (p : option Pagination) : list Stmt :=
  match p with
  | Some p =>
      [SLimit (default (limit p) 20%Z);
       SOffset ((default (page p) 1 - 1) * default (limit p) 20)%Z]
  | None => []
  end.

Section Helpers.

Variable DB : Type.
Variable exec : Query -> DB -> Result Response * DB.

(** [(await query).map((rowData) => new Row({ tableName, rowData, conn }))] *)
Definition findAll (opts : FindAllOpts) (w : World DB)
  : Result (list Row) * World DB :=
  let o := fa_select opts in
  match findAll_prepare opts with
  | Err e => (Err e, w)
  | Ok query =>
      let (res, w') := await DB exec query w in
      match res with
      | Ok (RespRows rows) =>
          (Ok (map (wrap_row (so_conn o) (so_tableName o)) rows), w')
      | Ok (RespNum _) => (Err TypeError, w')
      | Err e => (Err e, w')
      end
  end.

(** [const [result] = await findAll(opts); return result ?? null] *)
Definition find (opts : SelectOpts) (w : World DB)
  : Result (Maybe Row) * World DB :=
  let (res, w') := findAll (of_select opts) w in
  match res with
  | Ok rows => (Ok (nullish_or (first_element rows) Null), w')
  | Err e => (Err e, w')
  end.

(** [const [{ count }] = await query; return count] *)
Definition countAll (opts : CountAllOpts) (w : World DB)
  : Result JsValue * World DB :=
  let (res, w') := await DB exec (countAll_query opts) w in
  match res with
  | Ok (RespRows (first :: _)) => (Ok (obj_get first "count"), w')
  | Ok (RespRows []) => (Err TypeError, w')
  | Ok (RespNum _) => (Err TypeError, w')
  | Err e => (Err e, w')
  end.

End Helpers.

Arguments await {DB} exec q w.
Arguments setColumns {DB} exec data r w.
Arguments setColumn {DB} exec col value r w.
Arguments delete {DB} exec r w.
Arguments restore {DB} exec r w.
Arguments deletePermanently {DB} exec r w.
Arguments findAll {DB} exec opts w.
Arguments find {DB} exec opts w.
Arguments countAll {DB} exec opts w.

(* ================================================================== *)
(** * An in-memory connection

    A small table store with the capabilities the layer asks of a
    connection; it stands in for the database when the layer is run. *)

Module Mem.

Record Db : Type := mkDb {
  tables : list (string * list JsObject);
  clock : Z
}.

(** A record of a table is the list of its columns; [obj_own] reads one. *)

(** SQL [NULL]: a [null] value, or no value at all. *)
Definition is_null (v : JsValue) : bool :=
  match v with
  | VNull | VUndefined => true
  | _ => false
  end.

(** Whether a record passes one statement; only the [where] family
    filters. *)
Definition stmt_accepts (s : Stmt) (row : JsObject) : bool :=
  match s with
  | SWhereFn f => f row
  | SWhereObj key =>
      forallb (fun p => value_eqb (obj_own row (fst p)) (snd p)) key
  | SWhereNull col => is_null (obj_own row col)
  | _ => true
  end.

Definition matches (ss : list Stmt) (row : JsObject) : bool :=
  forallb (fun s => stmt_accepts s row) ss.

(** The last [.limit], [.offset], [.update], [.count] chained, if any. *)
Fixpoint limit_of (ss : list Stmt) (acc : option Z) : option Z :=
  match ss with
  | [] => acc
  | SLimit n :: rest => limit_of rest (Some n)
  | _ :: rest => limit_of rest acc
  end.

Fixpoint offset_of (ss : list Stmt) (acc : option Z) : option Z :=
  match ss with
  | [] => acc
  | SOffset n :: rest => offset_of rest (Some n)
  | _ :: rest => offset_of rest acc
  end.

Fixpoint update_of (ss : list Stmt) (acc : option JsObject) : option JsObject :=
  match ss with
  | [] => acc
  | SUpdate data :: rest => update_of rest (Some data)
  | _ :: rest => update_of rest acc
  end.

Fixpoint count_of (ss : list Stmt) (acc : option (string * list string))
  : option (string * list string) :=
  match ss with
  | [] => acc
  | SCount alias cols :: rest => count_of rest (Some (alias, cols))
  | _ :: rest => count_of rest acc
  end.

Definition is_delete (ss : list Stmt) : bool :=
  existsb (fun s => match s with SDelete => true | _ => false end) ss.

(** [OFFSET] then [LIMIT]. *)
Definition window (ss : list Stmt) (rows : list JsObject) : list JsObject :=
  let rows :=
    match offset_of ss None with
    | Some n => skipn (Z.to_nat n) rows
    | None => rows
    end in
  match limit_of ss None with
  | Some n => firstn (Z.to_nat n) rows
  | None => rows
  end.

(** The records a select query returns from a table. *)
Definition select_rows (ss : list Stmt) (rows : list JsObject) : list JsObject :=
  window ss (filter (matches ss) rows).

(** [COUNT(cols)]: the matching records in which the counted columns are
    not null. *)
Definition count_rows (ss : list Stmt) (cols : list string)
    (rows : list JsObject) : Z :=
  Z.of_nat (length (filter
    (fun row => forallb (fun c => negb (is_null (obj_own row c))) cols)
    (filter (matches ss) rows))).

(** The value a written expression leaves in the table. *)
Definition stored (now : Z) (v : JsValue) : JsValue :=
  match v with
  | VRaw sql => if sql =? "CURRENT_TIMESTAMP" then VDate now else v
  | _ => v
  end.

Definition update_row (now : Z) (data row : JsObject) : JsObject :=
  obj_assign row (map (fun p => (fst p, stored now (snd p))) data).

Fixpoint table_rows (ts : list (string * list JsObject)) (name : string)
  : option (list JsObject) :=
  match ts with
  | [] => None
  | (n, rows) :: rest => if n =? name then Some rows else table_rows rest name
  end.

Fixpoint table_put (ts : list (string * list JsObject)) (name : string)
    (rows : list JsObject) : list (string * list JsObject) :=
  match ts with
  | [] => []
  | (n, old) :: rest =>
      if n =? name then (n, rows) :: rest else (n, old) :: table_put rest name rows
  end.

Definition exec (q : Query) (d : Db) : Result Response * Db :=
  let ss := qStmts q in
  match table_rows (tables d) (qTable q) with
  | None => (Err (Rejected "unknown table"), d)
  | Some rows =>
      match update_of ss None with
      | Some data =>
          let rows' :=
            map (fun row => if matches ss row
                            then update_row (clock d) data row else row) rows in
          (Ok (RespNum (Z.of_nat (length (filter (matches ss) rows)))),
           {| tables := table_put (tables d) (qTable q) rows';
              clock := (clock d + 1)%Z |})
      | None =>
          if is_delete ss
          then (Ok (RespNum (Z.of_nat (length (filter (matches ss) rows)))),
                {| tables := table_put (tables d) (qTable q)
                               (filter (fun row => negb (matches ss row)) rows);
                   clock := clock d |})
          else
            match count_of ss None with
            | Some (alias, cols) =>
                (Ok (RespRows [[(alias, VNum (count_rows ss cols rows))]]), d)
            | None => (Ok (RespRows (select_rows ss rows)), d)
            end
      end
  end.

(** A world with one table. *)
Definition world (tableName : string) (rows : list JsObject) : World Db :=
  {| db := {| tables := [(tableName, rows)]; clock := 0 |}; issued := [] |}.

End Mem.

(* ================================================================== *)
(** * What the query builder refuses

    The builder copies the data of an [update] onto a fresh object, where
    a write to [__proto__] creates no property, and leaves out the
    properties whose value is [undefined]; an update with nothing left to
    write is refused when the query is awaited. *)

Definition update_values (data : JsObject) : JsObject :=
  filter (fun p => negb (fst p =? "__proto__")
                   && negb (typeof (snd p) =? "undefined")) data.

Definition refuses_empty_update {DB : Type}
    (exec : Query -> DB -> Result Response * DB) : Prop :=
  forall (q : Query) (data : JsObject) (d : DB),
    update_values data = [] ->
    exists e d', exec (chain q (SUpdate data)) d = (Err e, d').

(** The in-memory connection behind that check. *)
Module Checked.

Definition kept (s : Stmt) : Stmt :=
  match s with
  | SUpdate data => SUpdate (update_values data)
  | _ => s
  end.

Definition exec (q : Query) (d : Mem.Db) : Result Response * Mem.Db :=
  match Mem.update_of (qStmts q) None with
  | Some data =>
      match update_values data with
      | [] => (Err (Rejected "Empty .update() call detected!"), d)
      | _ :: _ =>
          Mem.exec {| qConn := qConn q; qTable := qTable q;
                      qStmts := map kept (qStmts q) |} d
      end
  | None => Mem.exec q d
  end.

End Checked.

(* ================================================================== *)
(** * Numbers

    A number is a double: sums and products of integers are the integers
    they are in mathematics as long as nothing exceeds [2 ^ 53] in
    magnitude. *)

Definition exact_integer (n : Z) : bool := (Z.abs n <=? 2 ^ 53)%Z.

(** The arithmetic of [(page - 1) * limit] is exact. *)
Definition exact_offset (page limit : Z) : bool :=
  exact_integer page && exact_integer limit && exact_integer (page - 1)
  && exact_integer ((page - 1) * limit).

(* ================================================================== *)
(** * Sample data: the [kansen] table of the test suite *)

Definition kansen_record (id : Z) (key name : string) (score : Z) : JsObject :=
  [("id", VNum id); ("time_created", VDate 0); ("time_updated", VDate 0);
   ("time_deleted", VNull); ("key", VStr key); ("name", VStr name);
   ("score", VNum score)].

Definition kansenTable : list JsObject :=
  [kansen_record 1 "karlsruhe" "Karlsruhe" 10;
   kansen_record 2 "leipzig" "Leipzig" 20;
   kansen_record 3 "z23" "Z23" 30;
   kansen_record 4 "prinz_eugen" "Prinz Eugen" 40;
   kansen_record 5 "odin" "Odin" 45;
   kansen_record 6 "friedrich_der_grosse" "Friedrich der Grosse" 55].

Definition kansen_world : World Mem.Db := Mem.world "kansen" kansenTable.

Definition testConn : Connection := Knex 0.
Definition otherConn : Connection := Knex 1.

(** [createTestRow()] of the test suite. *)
Definition testRow : Row :=
  new_Row {| ro_conn := testConn; ro_tableName := "kansen";
             ro_rowData :=
               [("id", VNum 252); ("time_created", VDate 536112000000);
                ("time_updated", VDate 597542400000);
                ("time_deleted", VDate 869529600000);
                ("key", VStr "graf_zeppelin"); ("name", VStr "Graf Zeppelin");
                ("score", VNum 40)];
             ro_idCol := None; ro_timeCreatedCol := None;
             ro_timeUpdatedCol := None; ro_timeDeletedCol := None;
             ro_primaryCols := None |}.

(** [where() { this.where("score", ">=", n) }] *)
Definition score_at_least (n : Z) : QueryFunction :=
  fun row => match obj_own row "score" with
             | VNum s => (n <=? s)%Z
             | _ => false
             end.

(** [where() { this.where(col, value) }] *)
Definition column_is (col : string) (value : JsValue) : QueryFunction :=
  fun row => value_eqb (obj_own row col) value.

Definition select_opts (where_ : option QueryFunction) : SelectOpts :=
  {| so_conn := testConn; so_tableName := "kansen"; so_where := where_;
     so_includeDeleted := None; so_includeDeletedCol := None;
     so_before := None |}.

(** Rows as [find] returns them from the table. *)
Definition z23Row : Row :=
  wrap_row testConn "kansen" (kansen_record 3 "z23" "Z23" 30).

Definition karlsruheDeletedRow : Row :=
  wrap_row testConn "kansen"
    (obj_set (kansen_record 1 "karlsruhe" "Karlsruhe" 10) "time_deleted" (VDate 5)).

(** Rows of queries that select some columns only. *)
Definition onlyDeletedColRow : Row :=
  wrap_row testConn "kansen" [("time_deleted", VNull)].


(** The table after [karlsruhe] was soft-deleted. *)
Definition kansen_deleted_world : World Mem.Db :=
  Mem.world "kansen"
    [obj_set (kansen_record 1 "karlsruhe" "Karlsruhe" 10) "time_deleted" (VDate 5);
     kansen_record 2 "leipzig" "Leipzig" 20].

(** [before(query) { query.clearWhere() }] *)
Definition clearWhere (q : Query) : Query :=
  {| qConn := qConn q; qTable := qTable q;
     qStmts := filter (fun s => match s with
                                | SWhereFn _ | SWhereObj _ | SWhereNull _ => false
                                | _ => true
                                end) (qStmts q) |}.

(** A row of a table the database does not have. *)
Definition ghostRow : Row :=
  wrap_row testConn "ghost" (kansen_record 3 "z23" "Z23" 30).

(** [where() { this.where(conn.raw("MOD(score, 2)"), "<>", 0) }] *)
Definition odd_score : QueryFunction :=
  fun row => match obj_own row "score" with
             | VNum s => negb (s mod 2 =? 0)%Z
             | _ => false
             end.

(** [await Promise.all(rows.map((row) => row.delete()))] *)
Fixpoint delete_each (rows : list Row) (w : World Mem.Db) : World Mem.Db :=
  match rows with
  | [] => w
  | r :: rest => delete_each rest (snd (delete Mem.exec r w))
  end.

(** Options whose [before] hook clears the conditions of the query. *)
Definition clearing_opts : SelectOpts :=
  {| so_conn := testConn; so_tableName := "kansen"; so_where := None;
     so_includeDeleted := None; so_includeDeletedCol := None;
     so_before := Some (fun q => Ok (clearWhere q)) |}.

(** Options whose [before] hook throws. *)
Definition throwing_opts : SelectOpts :=
  {| so_conn := testConn; so_tableName := "kansen"; so_where := None;
     so_includeDeleted := None; so_includeDeletedCol := None;
     so_before := Some (fun _ => Err (JsError "before failed")) |}.

(** The caller's own condition on a record. *)
Definition passes_where (o : SelectOpts) (row : JsObject) : bool :=
  match so_where o with
  | Some f => f row
  | None => true
  end.

(** The row of the custom-primary-key test: [leipzig], keyed on [key]. *)
Definition leipzigByKeyRow : Row :=
  new_Row {| ro_conn := testConn; ro_tableName := "kansen";
             ro_rowData := kansen_record 2 "leipzig" "Leipzig" 20;
             ro_idCol := None; ro_timeCreatedCol := None;
             ro_timeUpdatedCol := None; ro_timeDeletedCol := None;
             ro_primaryCols := Some ["key"] |}.

(** A row of a table with a column named [1], keyed on [name] and [1]. *)
Definition indexKeyedRow : Row :=
  new_Row {| ro_conn := testConn; ro_tableName := "grid";
             ro_rowData := [("1", VStr "a"); ("id", VNum 7); ("name", VStr "n")];
             ro_idCol := None; ro_timeCreatedCol := None;
             ro_timeUpdatedCol := None; ro_timeDeletedCol := None;
             ro_primaryCols := Some ["name"; "1"] |}.

(** [findAll] options asking for page [p] of [l] records. *)
Definition page_opts (o : SelectOpts) (p l : Z) : FindAllOpts :=
  {| fa_select := o;
     fa_pagination := Some {| page := Some p; limit := Some l |} |}.

(** A table whose soft-delete column is [removed_at], and options naming it. *)
Definition removed_at_world : World Mem.Db :=
  Mem.world "kansen"
    [[("id", VNum 1); ("removed_at", VNull); ("name", VStr "Karlsruhe")]].

Definition removed_at_opts : SelectOpts :=
  {| so_conn := testConn; so_tableName := "kansen"; so_where := None;
     so_includeDeleted := None; so_includeDeletedCol := Some "removed_at";
     so_before := None |}.

(** What the select helpers let through on the in-memory connection: the
    caller's condition, and no value in the soft-delete column unless
    deleted records are asked for. *)
Definition visible (o : SelectOpts) (row : JsObject) : bool :=
  passes_where o row
  && (default (so_includeDeleted o) false
      || Mem.is_null
           (obj_own row (default (so_includeDeletedCol o) TIME_DELETED_COL))).

(** The columns [countAll] counts. *)
Definition counted_columns (cb : option CountBy) : list string :=
  count_columns (default cb (CountCols [ID_COL])).

(* ================================================================== *)
(** * Properties of values and objects *)

Lemma typeof_undefined (v : JsValue) :
  (typeof v =? "undefined") = true <-> v = VUndefined.
Proof.
  split.
  - destruct v; simpl; intros H; try discriminate; reflexivity.
  - intros ->. reflexivity.
Qed.

Lemma js_or_truthy (a b : JsValue) : truthy b = true -> truthy (js_or a b) = true.
Proof.
  intros Hb. unfold js_or. destruct (truthy a) eqn:Ha; assumption.
Qed.

Lemma obj_has_in (o : JsObject) (k : string) :
  obj_has o k = true <-> In k (obj_keys o).
Proof.
  unfold obj_has, obj_keys. rewrite existsb_exists, in_map_iff. split.
  - intros (p & Hin & E). apply String.eqb_eq in E. now exists p.
  - intros (p & E & Hin). exists p. split; [exact Hin | now apply String.eqb_eq].
Qed.

Lemma obj_has_not_in (o : JsObject) (k : string) :
  obj_has o k = false <-> ~ In k (obj_keys o).
Proof.
  rewrite <- obj_has_in. destruct (obj_has o k); intuition congruence.
Qed.

(** ** Reading: own properties first, then the prototype *)

Lemma obj_get_own (o : JsObject) (k : string) :
  In k (obj_keys o) -> obj_get o k = obj_own o k.
Proof.
  induction o as [|[k' v'] rest IH]; simpl; intros Hin.
  - contradiction.
  - destruct (k' =? k) eqn:E; [reflexivity|].
    apply IH. destruct Hin as [->|Hin]; [|exact Hin].
    rewrite String.eqb_refl in E. discriminate.
Qed.

Lemma obj_get_inherited (o : JsObject) (k : string) :
  ~ In k (obj_keys o) -> obj_get o k = inherited k.
Proof.
  induction o as [|[k' v'] rest IH]; simpl; intros Hnin.
  - reflexivity.
  - destruct (k' =? k) eqn:E.
    + apply String.eqb_eq in E. exfalso. apply Hnin. now left.
    + apply IH. intros Hin. apply Hnin. now right.
Qed.

Lemma obj_own_absent (o : JsObject) (k : string) :
  ~ In k (obj_keys o) -> obj_own o k = VUndefined.
Proof.
  induction o as [|[k' v'] rest IH]; simpl; intros Hnin.
  - reflexivity.
  - destruct (k' =? k) eqn:E.
    + apply String.eqb_eq in E. exfalso. apply Hnin. now left.
    + apply IH. intros Hin. apply Hnin. now right.
Qed.

(** What is inherited is a function or the prototype itself. *)
Lemma inherited_cases (k : string) :
  inherited k = VUndefined
  \/ (exists f, inherited k = VFunction f)
  \/ inherited k = VObjectPrototype.
Proof.
  unfold inherited, Object_prototype. cbn [obj_own].
  repeat match goal with
         | |- context [if ?b then _ else _] =>
             destruct b; [right; (now left; eexists) || now right|]
         end.
  now left.
Qed.

Lemma obj_get_null_own (o : JsObject) (k : string) :
  obj_get o k = VNull -> In k (obj_keys o).
Proof.
  intros H. destruct (in_dec String.string_dec k (obj_keys o)) as [Hin|Hnin];
    [exact Hin|].
  rewrite (obj_get_inherited o k Hnin) in H.
  destruct (inherited_cases k) as [E|[(f & E)|E]]; congruence.
Qed.

(** ** Writing *)

Lemma obj_keys_overwrite (o : JsObject) (k : string) (v : JsValue) :
  obj_keys (obj_overwrite o k v) = obj_keys o.
Proof.
  induction o as [|[k' v'] rest IH]; simpl; [reflexivity|].
  destruct (k' =? k); simpl; [reflexivity | now rewrite IH].
Qed.

Lemma obj_get_overwrite_same (o : JsObject) (k : string) (v : JsValue) :
  In k (obj_keys o) -> obj_get (obj_overwrite o k v) k = v.
Proof.
  induction o as [|[k' v'] rest IH]; simpl; intros Hin.
  - contradiction.
  - destruct (k' =? k) eqn:E; simpl; rewrite E; [reflexivity|].
    apply IH. destruct Hin as [->|Hin]; [|exact Hin].
    rewrite String.eqb_refl in E. discriminate.
Qed.

Lemma obj_get_overwrite_other (o : JsObject) (k k' : string) (v : JsValue) :
  k <> k' -> obj_get (obj_overwrite o k v) k' = obj_get o k'.
Proof.
  intros Hne. induction o as [|[k0 v0] rest IH]; simpl; [reflexivity|].
  destruct (k0 =? k) eqn:E; simpl.
  - apply String.eqb_eq in E. subst k0.
    apply String.eqb_neq in Hne. now rewrite Hne.
  - destruct (k0 =? k'); [reflexivity | exact IH].
Qed.

Lemma obj_overwrite_same_value (o : JsObject) (k : string) :
  obj_overwrite o k (obj_own o k) = o.
Proof.
  induction o as [|[k' v'] rest IH]; simpl; [reflexivity|].
  destruct (k' =? k); [reflexivity | now rewrite IH].
Qed.

Lemma obj_overwrite_overwrite (o : JsObject) (k : string) (a b : JsValue) :
  obj_overwrite (obj_overwrite o k a) k b = obj_overwrite o k b.
Proof.
  induction o as [|[k' v'] rest IH]; simpl; [reflexivity|].
  destruct (k' =? k) eqn:E; simpl; rewrite E; [reflexivity | now rewrite IH].
Qed.

Lemma obj_get_append_same (o : JsObject) (k : string) (v : JsValue) :
  ~ In k (obj_keys o) -> obj_get (o ++ [(k, v)])%list k = v.
Proof.
  induction o as [|[k' v'] rest IH]; simpl; intros Hnin.
  - now rewrite String.eqb_refl.
  - destruct (k' =? k) eqn:E.
    + apply String.eqb_eq in E. exfalso. apply Hnin. now left.
    + apply IH. intros Hin. apply Hnin. now right.
Qed.

Lemma obj_get_append_other (o : JsObject) (k k' : string) (v : JsValue) :
  k <> k' -> obj_get (o ++ [(k, v)])%list k' = obj_get o k'.
Proof.
  intros Hne. induction o as [|[k0 v0] rest IH]; simpl.
  - apply String.eqb_neq in Hne. now rewrite Hne.
  - destruct (k0 =? k'); [reflexivity | exact IH].
Qed.

Lemma obj_get_create_same (o : JsObject) (k : string) (n : N) (v : JsValue) :
  ~ In k (obj_keys o) -> obj_get (obj_create_index o k n v) k = v.
Proof.
  induction o as [|[k' v'] rest IH]; simpl; intros Hnin.
  - now rewrite String.eqb_refl.
  - destruct (array_index k') as [m|]; [destruct (m <? n)%N|]; simpl;
      try now rewrite String.eqb_refl.
    destruct (k' =? k) eqn:E.
    + apply String.eqb_eq in E. exfalso. apply Hnin. now left.
    + apply IH. intros Hin. apply Hnin. now right.
Qed.

Lemma obj_get_create_other (o : JsObject) (k k' : string) (n : N) (v : JsValue) :
  k <> k' -> obj_get (obj_create_index o k n v) k' = obj_get o k'.
Proof.
  intros Hne. pose proof Hne as Hb. apply String.eqb_neq in Hb.
  induction o as [|[k0 v0] rest IH]; simpl.
  - now rewrite Hb.
  - destruct (array_index k0) as [m|]; [destruct (m <? n)%N|]; simpl;
      try now rewrite Hb.
    destruct (k0 =? k'); [reflexivity | exact IH].
Qed.

Lemma obj_keys_create_iff (o : JsObject) (k x : string) (n : N) (v : JsValue) :
  In x (obj_keys (obj_create_index o k n v)) <-> x = k \/ In x (obj_keys o).
Proof.
  induction o as [|[k' v'] rest IH]; simpl.
  - intuition.
  - destruct (array_index k') as [m|]; [destruct (m <? n)%N|]; simpl;
      try rewrite IH; intuition.
Qed.

(** A property that is written is read back. *)
Lemma obj_get_set_same (o : JsObject) (k : string) (v : JsValue) :
  obj_get (obj_set o k v) k = v.
Proof.
  unfold obj_set. destruct (obj_has o k) eqn:H.
  - apply obj_get_overwrite_same. now apply obj_has_in.
  - apply obj_has_not_in in H. destruct (array_index k) as [n|].
    + now apply obj_get_create_same.
    + now apply obj_get_append_same.
Qed.

Lemma obj_get_set_other (o : JsObject) (k k' : string) (v : JsValue) :
  k <> k' -> obj_get (obj_set o k v) k' = obj_get o k'.
Proof.
  intros Hne. unfold obj_set. destruct (obj_has o k).
  - now apply obj_get_overwrite_other.
  - destruct (array_index k) as [n|].
    + now apply obj_get_create_other.
    + now apply obj_get_append_other.
Qed.

(** Writing a key the object has leaves the keys and their order as they
    are. *)
Lemma obj_keys_set_present (o : JsObject) (k : string) (v : JsValue) :
  In k (obj_keys o) -> obj_keys (obj_set o k v) = obj_keys o.
Proof.
  intros Hin. unfold obj_set. apply obj_has_in in Hin. rewrite Hin.
  apply obj_keys_overwrite.
Qed.


Lemma obj_keys_set_iff (o : JsObject) (k x : string) (v : JsValue) :
  In x (obj_keys (obj_set o k v)) <-> x = k \/ In x (obj_keys o).
Proof.
  unfold obj_set. destruct (obj_has o k) eqn:H.
  - rewrite obj_keys_overwrite. apply obj_has_in in H.
    split; [now right | intros [->|Hx]; assumption].
  - destruct (array_index k) as [n|].
    + apply obj_keys_create_iff.
    + unfold obj_keys. rewrite map_app, in_app_iff. simpl. intuition.
Qed.



(* ================================================================== *)
(** * Columns *)

Lemma isColumn_defined (r : Row) (col : string) :
  isColumn r col = true <-> obj_get (rowData r) col <> VUndefined.
Proof.
  unfold isColumn. rewrite negb_true_iff. split.
  - intros H Hu. apply typeof_undefined in Hu. congruence.
  - intros H. destruct (typeof (obj_get (rowData r) col) =? "undefined") eqn:E;
      [|reflexivity].
    apply typeof_undefined in E. contradiction.
Qed.

Lemma isColumn_missing (r : Row) (col : string) :
  isColumn r col = false <-> obj_get (rowData r) col = VUndefined.
Proof.
  unfold isColumn. rewrite negb_false_iff. apply typeof_undefined.
Qed.

Lemma getColumn_present (r : Row) (col : string) :
  isColumn r col = true -> getColumn r col = Ok (obj_get (rowData r) col).
Proof.
  intros H. unfold getColumn. now rewrite H.
Qed.

Lemma getColumn_missing (r : Row) (col : string) :
  isColumn r col = false ->
  getColumn r col = Err (JsError (column_not_found col (tableName r))).
Proof.
  intros H. unfold getColumn. now rewrite H.
Qed.

(** A name is a column when [rowData] has it as a key with a value other
    than [undefined], or has no such key and inherits something under that
    name. *)
Lemma isColumn_own_or_inherited (r : Row) (col : string) :
  isColumn r col = true <->
  (In col (obj_keys (rowData r)) /\ obj_own (rowData r) col <> VUndefined)
  \/ (~ In col (obj_keys (rowData r)) /\ inherited col <> VUndefined).
Proof.
  rewrite isColumn_defined.
  destruct (in_dec String.string_dec col (obj_keys (rowData r))) as [Hin|Hnin].
  - rewrite (obj_get_own _ _ Hin). intuition.
  - rewrite (obj_get_inherited _ _ Hnin). intuition.
Qed.

(** A key holding [null] counts as present. *)
Lemma isColumn_null (r : Row) (col : string) :
  obj_get (rowData r) col = VNull -> isColumn r col = true.
Proof.
  intros H. apply isColumn_defined. rewrite H. discriminate.
Qed.

Example isColumn_test_row :
  isColumn testRow "score" = true
  /\ isColumn testRow "status" = false
  /\ isColumn testRow "__proto__" = true
  /\ getColumn testRow "name" = Ok (VStr "Graf Zeppelin")
  /\ getColumn testRow "status"
     = Err (JsError "Column 'status' does not exist for table kansen").
Proof. repeat split. Qed.

(** C5. [isColumn(col)] reads [rowData[col]] through the prototype chain.
    On the row of the test suite, [toString] is not a key of [rowData], yet
    [isColumn("toString")] is true and [getColumn("toString")] returns the
    function every object inherits under that name, where the
    column-not-found error was due. *)
Theorem isColumn_inherited_name :
  ~ In "toString" (obj_keys (rowData testRow))
  /\ isColumn testRow "toString" = true
  /\ getColumn testRow "toString" = Ok (VFunction "toString").
Proof.
  split; [|split; reflexivity].
  simpl. intuition discriminate.
Qed.

(* ================================================================== *)
(** * The primary key *)

(** When every remaining column is present the loop runs to its end: the
    result has the keys it started with and the columns visited, the
    visited columns carry their values from [rowData], and the others keep
    what they had. *)
Lemma primaryKey_loop_ok (r : Row) (cols : list string) :
  forall key : JsObject,
    (forall c, In c cols -> isColumn r c = true) ->
    exists key',
      primaryKey_loop r cols key = Ok key'
      /\ (forall k, In k (obj_keys key') <-> In k (obj_keys key) \/ In k cols)
      /\ (forall k, In k cols -> obj_get key' k = obj_get (rowData r) k)
      /\ (forall k, ~ In k cols -> obj_get key' k = obj_get key k).
Proof.
  induction cols as [|c rest IH]; intros key Hall; simpl.
  - exists key. repeat split; intuition.
  - rewrite (getColumn_present r c) by (apply Hall; now left).
    destruct (IH (obj_set key c (obj_get (rowData r) c))) as (key' & Hrun & Hkeys & Hin & Hout).
    { intros c' Hc'. apply Hall. now right. }
    exists key'. split; [exact Hrun|]. split; [|split].
    + intros k. rewrite Hkeys, obj_keys_set_iff. intuition.
    + intros k [->|Hk].
      * destruct (in_dec String.string_dec k rest) as [Hi|Hn].
        -- now apply Hin.
        -- rewrite (Hout k Hn). apply obj_get_set_same.
      * now apply Hin.
    + intros k Hk. rewrite Hout by (intros Hi; apply Hk; now right).
      apply obj_get_set_other. intros ->. apply Hk. now left.
Qed.



(** The loop stops at the first column that is not present. *)
Lemma primaryKey_loop_err (r : Row) (cols : list string) :
  forall key : JsObject,
    (exists c, In c cols /\ isColumn r c = false) ->
    exists pre c post,
      cols = (pre ++ c :: post)%list
      /\ (forall p, In p pre -> isColumn r p = true)
      /\ isColumn r c = false
      /\ primaryKey_loop r cols key
         = Err (JsError (column_not_found c (tableName r))).
Proof.
  induction cols as [|c rest IH]; intros key (bad & Hin & Hbad); simpl.
  - contradiction.
  - destruct (isColumn r c) eqn:Hc.
    + rewrite (getColumn_present r c Hc).
      destruct Hin as [->|Hin]; [congruence|].
      destruct (IH (obj_set key c (obj_get (rowData r) c)))
        as (pre & c' & post & -> & Hpre & Hc' & Hrun).
      { exists bad. now split. }
      exists (c :: pre), c', post. repeat split; try assumption.
      intros p [->|Hp]; [assumption | now apply Hpre].
    + rewrite (getColumn_missing r c Hc).
      exists [], c, rest. repeat split; try assumption. intros p [].
Qed.



(** A primary column that is an array index comes first among the keys,
    whatever its place in [primaryCols]. *)
Example primaryKey_index_first :
  primaryKey indexKeyedRow = Ok [("1", VStr "a"); ("name", VStr "n")].
Proof. reflexivity. Qed.

(** A primary column that is only inherited passes for present. *)
Example primaryKey_inherited_column :
  primaryKey (mkRow testConn ["valueOf"] "kansen" (rowData testRow) "id"
                "time_created" "time_updated" "time_deleted" (VConn testConn))
  = Ok [("valueOf", VFunction "valueOf")].
Proof. reflexivity. Qed.

(* ================================================================== *)
(** * The connection property *)

Lemma set_connection_initialConn (r : Row) (v : JsValue) :
  initialConn (set_connection r v) = initialConn r.
Proof. reflexivity. Qed.

Lemma assign_connections_initialConn (values : list JsValue) :
  forall r, initialConn (assign_connections r values) = initialConn r.
Proof.
  unfold assign_connections.
  induction values as [|v vs IH]; intros r; simpl; [reflexivity|].
  now rewrite IH.
Qed.

Lemma assign_connections_truthy (values : list JsValue) :
  forall r, truthy (connection r) = true ->
            truthy (connection (assign_connections r values)) = true.
Proof.
  unfold assign_connections.
  induction values as [|v vs IH]; intros r Hr; simpl; [exact Hr|].
  apply IH. unfold set_connection, connection. simpl.
  now apply js_or_truthy.
Qed.

Lemma assign_connections_last (r : Row) (vs : list JsValue) (v : JsValue) :
  assign_connections r (vs ++ [v]) = set_connection (assign_connections r vs) v.
Proof.
  unfold assign_connections. now rewrite fold_left_app.
Qed.

(** C6. Through any run of assignments to [connection], [initialConn] stays
    what the constructor was given; an assigned truthy value is what the
    getter returns next, an assigned falsy value brings the getter back to
    [initialConn], so the getter never yields a falsy (undefined or empty)
    state; in particular assigning [null] after another connection restores
    the connection of construction. *)
Theorem connection_spec (opts : RowOpts) (values : list JsValue) :
  let r := assign_connections (new_Row opts) values in
  initialConn r = ro_conn opts
  /\ truthy (connection r) = true
  /\ (forall v, connection (set_connection r v)
                = if truthy v then v else VConn (ro_conn opts))
  /\ (forall c, connection (set_connection (set_connection r (VConn c)) VNull)
                = VConn (ro_conn opts))
  /\ (values = [] -> connection r = VConn (ro_conn opts)).
Proof.
  intros r. subst r.
  assert (Hi : initialConn (assign_connections (new_Row opts) values) = ro_conn opts).
  { now rewrite assign_connections_initialConn. }
  split; [exact Hi|]. split.
  - now apply assign_connections_truthy.
  - split; [|split].
    + intros v. unfold set_connection, connection. simpl.
      unfold js_or. now rewrite Hi.
    + intros c. unfold set_connection, connection. simpl. now rewrite Hi.
    + intros ->. reflexivity.
Qed.

(** The last test of the suite: a new connection, then [null]. *)
Lemma connection_spec_witness :
  connection (assign_connections testRow [VConn otherConn]) = VConn otherConn
  /\ connection (assign_connections testRow [VConn otherConn; VNull]) = VConn testConn
  /\ connection (assign_connections testRow [VConn otherConn; VStr ""]) = VConn testConn.
Proof.
  pose proof (connection_spec
    {| ro_conn := testConn; ro_tableName := "kansen";
       ro_rowData := rowData testRow;
       ro_idCol := None; ro_timeCreatedCol := None;
       ro_timeUpdatedCol := None; ro_timeDeletedCol := None;
       ro_primaryCols := None |}) as H.
  split; [|split].
  - exact (proj1 (proj2 (proj2 (H [])))  (VConn otherConn)).
  - exact (proj1 (proj2 (proj2 (H [VConn otherConn]))) VNull).
  - exact (proj1 (proj2 (proj2 (H [VConn otherConn]))) (VStr "")).
Defined.

(* ================================================================== *)
(** * Writing columns *)

Lemma obj_assign_single (o : JsObject) (k : string) (v : JsValue) :
  obj_assign o [(k, v)] = obj_set o k v.
Proof. reflexivity. Qed.

Lemma obj_set_same_value (o : JsObject) (k : string) :
  In k (obj_keys o) -> obj_set o k (obj_get o k) = o.
Proof.
  intros Hin. rewrite (obj_get_own o k Hin). unfold obj_set.
  apply obj_has_in in Hin. rewrite Hin. apply obj_overwrite_same_value.
Qed.

(** A merge of columns that are all there adds no property. *)
Lemma obj_assign_same_keys (source : JsObject) :
  forall target,
    (forall k, In k (obj_keys source) -> In k (obj_keys target)) ->
    obj_keys (obj_assign target source) = obj_keys target.
Proof.
  induction source as [|[k v] rest IH]; intros target Hall; simpl.
  - reflexivity.
  - rewrite IH.
    + apply obj_keys_set_present. apply Hall. now left.
    + intros k' Hk'. apply obj_keys_set_iff. right. apply Hall. now right.
Qed.

(** A merge keeps the keys of the target and adds those of the source. *)
Lemma obj_keys_assign_iff (source : JsObject) (x : string) :
  forall target,
    In x (obj_keys (obj_assign target source))
    <-> In x (obj_keys target) \/ In x (obj_keys source).
Proof.
  induction source as [|[k v] rest IH]; intros target; simpl.
  - intuition.
  - rewrite IH, obj_keys_set_iff. intuition.
Qed.

Lemma obj_get_assign_other (source : JsObject) (k : string) :
  forall target,
    ~ In k (obj_keys source) -> obj_get (obj_assign target source) k = obj_get target k.
Proof.
  induction source as [|[k' v] rest IH]; intros target Hnin; simpl.
  - reflexivity.
  - rewrite IH by (intros Hi; apply Hnin; now right).
    apply obj_get_set_other. intros ->. apply Hnin. now left.
Qed.

Lemma obj_get_assign_in (source : JsObject) (k : string) :
  forall target,
    NoDup (obj_keys source) -> In k (obj_keys source) ->
    obj_get (obj_assign target source) k = obj_get source k.
Proof.
  induction source as [|[k' v] rest IH]; intros target Hnd Hin; simpl in *.
  - contradiction.
  - inversion Hnd as [|? ? Hnin Hnd']; subst.
    destruct (k' =? k) eqn:E.
    + apply String.eqb_eq in E. subst k'.
      rewrite obj_get_assign_other by exact Hnin. apply obj_get_set_same.
    + destruct Hin as [->|Hin]; [rewrite String.eqb_refl in E; discriminate|].
      now apply IH.
Qed.

Lemma with_rowData_same (r : Row) : with_rowData r (rowData r) = r.
Proof. now destruct r. Qed.

Lemma check_columns_ok (r : Row) (keys : list string) :
  (forall k, In k keys -> isColumn r k = true) -> check_columns r keys = Ok tt.
Proof.
  induction keys as [|k rest IH]; intros Hall; simpl; [reflexivity|].
  rewrite (Hall k) by now left. simpl. apply IH.
  intros k' Hk'. apply Hall. now right.
Qed.

Lemma check_columns_inv (r : Row) (keys : list string) (u : unit) :
  check_columns r keys = Ok u -> forall k, In k keys -> isColumn r k = true.
Proof.
  induction keys as [|k rest IH]; simpl; intros Hrun k' Hin; [contradiction|].
  destruct (isColumn r k) eqn:Hk; simpl in Hrun; [|discriminate].
  destruct Hin as [->|Hin]; [exact Hk | now apply IH].
Qed.


Lemma query_ok (r : Row) (c : Connection) (key : JsObject) :
  connection r = VConn c -> primaryKey r = Ok key ->
  query r = Ok (mkQuery c (tableName r) [SWhereObj key]).
Proof.
  intros Hc Hk. unfold query. now rewrite Hc, Hk.
Qed.

Lemma query_inv (r : Row) (q : Query) :
  query r = Ok q ->
  exists c key, connection r = VConn c /\ primaryKey r = Ok key
                /\ q = mkQuery c (tableName r) [SWhereObj key].
Proof.
  unfold query. destruct (connection r) as [| | | | | | |c| |]; try discriminate.
  destruct (primaryKey r) as [key|e]; [|discriminate].
  intros H. injection H as <-. now exists c, key.
Qed.

Section Writes.

Context {DB : Type} (exec : Query -> DB -> Result Response * DB).

Lemma setColumns_invalid (data : JsObject) (r : Row) (w : World DB) (e : Error) :
  check_columns r (obj_keys data) = Err e ->
  setColumns exec data r w = (Err e, r, w).
Proof.
  intros H. unfold setColumns. now rewrite H.
Qed.

Lemma setColumns_resolved (data : JsObject) (r : Row) (w : World DB)
    (c : Connection) (key : JsObject) (resp : Response) (d' : DB) :
  (forall k, In k (obj_keys data) -> isColumn r k = true) ->
  connection r = VConn c ->
  primaryKey r = Ok key ->
  exec (mkQuery c (tableName r) [SWhereObj key; SUpdate data]) (db w) = (Ok resp, d') ->
  setColumns exec data r w
  = (Ok tt, with_rowData r (obj_assign (rowData r) data),
     mkWorld d' (issued w ++ [mkQuery c (tableName r) [SWhereObj key; SUpdate data]])).
Proof.
  intros Hall Hc Hk Hx. unfold setColumns.
  rewrite (check_columns_ok r _ Hall), (query_ok r c key Hc Hk).
  unfold await, chain. simpl. now rewrite Hx.
Qed.


(** Whatever happens, [setColumns] awaits nothing, or exactly one update
    on the row's primary key after every key passed. *)
Lemma setColumns_issued (data : JsObject) (r : Row) (w : World DB) :
  snd (setColumns exec data r w) = w
  \/ ((forall k, In k (obj_keys data) -> isColumn r k = true)
      /\ exists c key,
           connection r = VConn c /\ primaryKey r = Ok key
           /\ issued (snd (setColumns exec data r w))
              = (issued w ++ [mkQuery c (tableName r) [SWhereObj key; SUpdate data]])%list).
Proof.
  unfold setColumns.
  destruct (check_columns r (obj_keys data)) as [u|e] eqn:Hchk; [|now left].
  destruct (query r) as [q|e] eqn:Hq; [|now left].
  right. split; [now apply (check_columns_inv r _ u)|].
  destruct (query_inv r q Hq) as (c & key & Hc & Hk & ->).
  exists c, key. split; [exact Hc|]. split; [exact Hk|].
  unfold await, chain. simpl.
  destruct (exec _ (db w)) as [[resp|e] d']; reflexivity.
Qed.


(** A call that resolves has merged [data] into [rowData]. *)
Lemma setColumns_merged (data : JsObject) (r : Row) (w : World DB) :
  fst (fst (setColumns exec data r w)) = Ok tt ->
  snd (fst (setColumns exec data r w))
  = with_rowData r (obj_assign (rowData r) data).
Proof.
  unfold setColumns.
  destruct (check_columns r (obj_keys data)); [|discriminate].
  destruct (query r); [|discriminate].
  destruct (await exec _ w) as [[resp|e'] w']; simpl; [reflexivity | discriminate].
Qed.

(** A call that resolves is one whose update the connection executed. *)
Lemma setColumns_ok_exec (data : JsObject) (r r' : Row) (w w' : World DB) :
  setColumns exec data r w = (Ok tt, r', w') ->
  exists q resp d',
    query r = Ok q
    /\ exec (chain q (SUpdate data)) (db w) = (Ok resp, d')
    /\ r' = with_rowData r (obj_assign (rowData r) data)
    /\ w' = mkWorld d' (issued w ++ [chain q (SUpdate data)]).
Proof.
  unfold setColumns.
  destruct (check_columns r (obj_keys data)) as [u|e]; [|discriminate].
  destruct (query r) as [q|e]; [|discriminate].
  unfold await.
  destruct (exec (chain q (SUpdate data)) (db w)) as [[resp|e] d'] eqn:Hx;
    [|discriminate].
  intros H. injection H as <- <-. now exists q, resp, d'.
Qed.

End Writes.

(** An update whose data holds a value to write. *)
Lemma update_values_single (k : string) (v : JsValue) :
  update_values [(k, v)] <> [] -> k <> "__proto__" /\ v <> VUndefined.
Proof.
  unfold update_values. simpl.
  destruct (k =? "__proto__") eqn:Ek; simpl; [intros H; now elim H|].
  destruct (typeof v =? "undefined") eqn:Ev; simpl; [intros H; now elim H|].
  intros _. split.
  - now apply String.eqb_neq.
  - intros ->. discriminate.
Qed.

Section WriteClaims.

Context {DB : Type} (exec : Query -> DB -> Result Response * DB).


(** C4. On a connection that refuses an update with no value to write, as
    the query builder does: for every column name [k] and every value [v],
    once [setColumns({k: v})] has resolved, [getColumn(k)] returns [v]. It
    reads the row only; the one query awaited is the update. *)
Theorem setColumns_then_getColumn (k : string) (v : JsValue)
    (r r' : Row) (w w' : World DB) :
  refuses_empty_update exec ->
  setColumns exec [(k, v)] r w = (Ok tt, r', w') ->
  getColumn r' k = Ok v
  /\ exists q, query r = Ok q
               /\ issued w' = (issued w ++ [chain q (SUpdate [(k, v)])])%list.
Proof.
  intros Hknex Hrun.
  destruct (setColumns_ok_exec exec _ r r' w w' Hrun)
    as (q & resp & d' & Hq & Hx & -> & ->).
  assert (Hv : v <> VUndefined).
  { apply (update_values_single k v). intros Hempty.
    destruct (Hknex q [(k, v)] (db w) Hempty) as (e & d2 & Hx').
    congruence. }
  split; [|now exists q].
  rewrite getColumn_present.
  - simpl. now rewrite obj_get_set_same.
  - apply isColumn_defined. simpl. now rewrite obj_get_set_same.
Qed.

(** C9, amended. For a row that holds a connection and whose primary
    columns are present: [restore()] on a row whose [timeDeletedCol] is
    [null] passes the check and, when its update is executed
    successfully, resolves and leaves the row as it is, [null] included;
    [delete()] on a row that is already deleted passes the check and,
    when its update is executed successfully, resolves with
    [timeDeletedCol] set to the connection's current-time expression.
    Neither looks at the value the column has. *)
Theorem restore_delete_again (r : Row) (w : World DB)
    (c : Connection) (key : JsObject) :
  connection r = VConn c ->
  primaryKey r = Ok key ->
  (forall resp d',
      obj_get (rowData r) (timeDeletedCol r) = VNull ->
      exec (mkQuery c (tableName r)
              [SWhereObj key; SUpdate [(timeDeletedCol r, VNull)]]) (db w)
      = (Ok resp, d') ->
      restore exec r w
      = (Ok tt, r,
         mkWorld d' (issued w
           ++ [mkQuery c (tableName r)
                 [SWhereObj key; SUpdate [(timeDeletedCol r, VNull)]]])))
  /\ (forall resp d',
        isDeleted r = Ok true ->
        exec (mkQuery c (tableName r)
                [SWhereObj key; SUpdate [(timeDeletedCol r, fn_now c)]]) (db w)
        = (Ok resp, d') ->
        exists r',
          delete exec r w
          = (Ok tt, r',
             mkWorld d' (issued w
               ++ [mkQuery c (tableName r)
                     [SWhereObj key; SUpdate [(timeDeletedCol r, fn_now c)]]]))
          /\ obj_get (rowData r') (timeDeletedCol r') = VRaw "CURRENT_TIMESTAMP"
          /\ isDeleted r' = Ok true).
Proof.
  intros Hc Hk. split.
  - intros resp d' Hnull Hx. unfold restore.
    assert (Hcol : isColumn r (timeDeletedCol r) = true).
    { apply isColumn_defined. rewrite Hnull. discriminate. }
    rewrite (setColumns_resolved exec _ r w c key resp d'); try assumption.
    + rewrite obj_assign_single, <- Hnull, obj_set_same_value.
      * now rewrite with_rowData_same.
      * now apply obj_get_null_own.
    + intros k [<-|[]]. exact Hcol.
  - intros resp d' Hdel Hx. unfold delete. rewrite Hc.
    assert (Hcol : isColumn r (timeDeletedCol r) = true).
    { unfold isDeleted, timeDeleted, getColumn in Hdel.
      destruct (isColumn r (timeDeletedCol r)); [reflexivity | discriminate]. }
    rewrite (setColumns_resolved exec _ r w c key resp d'); try assumption.
    + eexists. split; [reflexivity|]. simpl.
      assert (Hget : obj_get (obj_set (rowData r) (timeDeletedCol r) (fn_now c))
                       (timeDeletedCol r) = VRaw "CURRENT_TIMESTAMP")
        by apply obj_get_set_same.
      split; [exact Hget|].
      unfold isDeleted, timeDeleted, getColumn, isColumn. simpl.
      now rewrite Hget.
    + intros k [<-|[]]. exact Hcol.
Qed.


End WriteClaims.


(** The first key that is not a column is the one the error names. *)
Example setColumns_first_offending_key :
  setColumns Mem.exec [("name", VStr "x"); ("status", VStr "ok"); ("state", VNull)]
    z23Row kansen_world
  = (Err (JsError "Column 'status' does not exist for table kansen"),
     z23Row, kansen_world).
Proof. reflexivity. Qed.

(** The checked connection refuses what the builder refuses. *)
Lemma update_of_last (ss : list Stmt) (data : JsObject) :
  forall acc, Mem.update_of (ss ++ [SUpdate data]) acc = Some data.
Proof.
  induction ss as [|s rest IH]; intros acc; simpl; [reflexivity|].
  destruct s; apply IH.
Qed.

Lemma Checked_refuses_empty_update : refuses_empty_update Checked.exec.
Proof.
  intros q data d Hempty. unfold Checked.exec, chain. simpl.
  rewrite update_of_last, Hempty. now eexists; eexists.
Qed.

(** [setColumn("name", "KMS Z23")] and then [getColumn("name")]; an update
    of [undefined] alone does not get through. *)
Lemma setColumns_then_getColumn_witness :
  fst (fst (setColumns Checked.exec [("name", VStr "KMS Z23")] z23Row kansen_world))
  = Ok tt
  /\ getColumn
       (snd (fst (setColumns Checked.exec [("name", VStr "KMS Z23")] z23Row
                    kansen_world)))
       "name"
     = Ok (VStr "KMS Z23")
  /\ setColumns Checked.exec [("name", VUndefined)] z23Row kansen_world
     = (Err (Rejected "Empty .update() call detected!"), z23Row,
        mkWorld (db kansen_world)
          [mkQuery testConn "kansen"
             [SWhereObj [("id", VNum 3)]; SUpdate [("name", VUndefined)]]]).
Proof.
  split; [reflexivity|]. split; [|reflexivity].
  apply (setColumns_then_getColumn Checked.exec "name" (VStr "KMS Z23") z23Row _
           kansen_world
           (snd (setColumns Checked.exec [("name", VStr "KMS Z23")] z23Row
                   kansen_world))
           Checked_refuses_empty_update).
  reflexivity.
Defined.

(** [restore()] on a row that is not deleted, [delete()] on one that is. *)
Lemma restore_delete_again_witness :
  (exists w', restore Mem.exec z23Row kansen_world = (Ok tt, z23Row, w'))
  /\ (exists r' w',
        delete Mem.exec karlsruheDeletedRow kansen_deleted_world = (Ok tt, r', w')
        /\ obj_get (rowData r') "time_deleted" = VRaw "CURRENT_TIMESTAMP").
Proof.
  split.
  - eexists.
    apply (proj1 (restore_delete_again Mem.exec z23Row kansen_world
                    testConn [("id", VNum 3)] eq_refl eq_refl)
             (RespNum 1)
             (snd (Mem.exec (mkQuery testConn "kansen"
                     [SWhereObj [("id", VNum 3)]; SUpdate [("time_deleted", VNull)]])
                     (db kansen_world)))).
    + reflexivity.
    + reflexivity.
  - destruct (proj2 (restore_delete_again Mem.exec karlsruheDeletedRow
                       kansen_deleted_world testConn [("id", VNum 1)] eq_refl eq_refl)
                (RespNum 1)
                (snd (Mem.exec (mkQuery testConn "kansen"
                        [SWhereObj [("id", VNum 1)];
                         SUpdate [("time_deleted", fn_now testConn)]])
                        (db kansen_deleted_world))))
      as (r' & Hrun & Hget & _).
    + reflexivity.
    + reflexivity.
    + exists r'. eexists. split; [exact Hrun|].
      replace "time_deleted" with (timeDeletedCol r'); [exact Hget|].
      pose proof (setColumns_merged Mem.exec
                    [("time_deleted", fn_now testConn)]
                    karlsruheDeletedRow kansen_deleted_world) as Hm.
      change (setColumns Mem.exec [("time_deleted", fn_now testConn)]
                karlsruheDeletedRow kansen_deleted_world)
        with (delete Mem.exec karlsruheDeletedRow kansen_deleted_world) in Hm.
      rewrite Hrun in Hm. simpl in Hm. rewrite (Hm eq_refl). reflexivity.
Defined.

(** C9 as stated fails for a row that has [timeDeletedCol] (already
    [null]) but not its primary column: [restore()] is rejected with the
    column-not-found error of [id], and nothing is written. It also fails
    whenever the connection rejects the update, here for want of the
    table. *)
Lemma restore_without_primary_column :
  isColumn onlyDeletedColRow (timeDeletedCol onlyDeletedColRow) = true
  /\ obj_get (rowData onlyDeletedColRow) (timeDeletedCol onlyDeletedColRow) = VNull
  /\ restore Mem.exec onlyDeletedColRow kansen_world
     = (Err (JsError "Column 'id' does not exist for table kansen"),
        onlyDeletedColRow, kansen_world)
  /\ obj_get (rowData ghostRow) (timeDeletedCol ghostRow) = VNull
  /\ fst (fst (restore Mem.exec ghostRow kansen_world)) = Err (Rejected "unknown table").
Proof.
  repeat split.
Qed.


(* ================================================================== *)
(** * Building and running select queries *)

Lemma chain_stmts (q : Query) (s : Stmt) :
  chain q s = mkQuery (qConn q) (qTable q) (qStmts q ++ [s]).
Proof. reflexivity. Qed.

Lemma findAll_build_stmts (opts : FindAllOpts) :
  findAll_build opts
  = mkQuery (so_conn (fa_select opts)) (so_tableName (fa_select opts))
      (where_part (fa_select opts) ++ soft_delete_part (fa_select opts)
       ++ pagination_part (fa_pagination opts)).
Proof.
  destruct opts as [[c t wh incl col bef] pag].
  unfold findAll_build, where_part, soft_delete_part, pagination_part,
    add_where, add_soft_delete, add_pagination, chain, from_table; simpl.
  destruct wh as [f|], incl as [[|]|], pag as [p|]; reflexivity.
Qed.

Lemma countAll_query_stmts (opts : CountAllOpts) :
  countAll_query opts
  = mkQuery (so_conn (ca_select opts)) (so_tableName (ca_select opts))
      (where_part (ca_select opts) ++ soft_delete_part (ca_select opts)
       ++ [SCount "count"
             (count_columns (default (ca_countBy opts) (CountCols ["id"])))]).
Proof.
  destruct opts as [[c t wh incl col bef] cb].
  unfold countAll_query, where_part, soft_delete_part,
    add_where, add_soft_delete, chain, from_table; simpl.
  destruct wh as [f|], incl as [[|]|]; reflexivity.
Qed.

Lemma wrap_row_fields (c : Connection) (t : string) (rd : RowData) :
  initialConn (wrap_row c t rd) = c
  /\ connection (wrap_row c t rd) = VConn c
  /\ tableName (wrap_row c t rd) = t
  /\ rowData (wrap_row c t rd) = rd.
Proof. repeat split. Qed.

(** Up to its [await], [findAll] either is stopped by the builder refusing
    a negative offset, or hands the query as built to the hook. *)
Lemma findAll_prepare_accepted (opts : FindAllOpts) :
  (forall p, fa_pagination opts = Some p ->
             (0 <= (default (page p) 1 - 1) * default (limit p) 20)%Z) ->
  findAll_prepare opts
  = run_before (so_before (fa_select opts)) (findAll_build opts).
Proof.
  intros Hoff. unfold findAll_prepare, findAll_build.
  destruct (fa_pagination opts) as [p|]; [|reflexivity].
  unfold paginate, add_pagination, offset, DEFAULT_PAGINATION_LIMIT.
  specialize (Hoff p eq_refl). apply Z.ltb_ge in Hoff. now rewrite Hoff.
Qed.

Lemma findAll_prepare_refused (opts : FindAllOpts) (p : Pagination) :
  fa_pagination opts = Some p ->
  ((default (page p) 1 - 1) * default (limit p) 20 < 0)%Z ->
  findAll_prepare opts = Err (JsError offset_refused).
Proof.
  intros Hp Hoff. unfold findAll_prepare. rewrite Hp.
  unfold paginate, offset, DEFAULT_PAGINATION_LIMIT.
  apply Z.ltb_lt in Hoff. now rewrite Hoff.
Qed.

(** Whenever the [await] is reached, it is with what the hook made of the
    query as built. *)
Lemma findAll_prepare_ok (opts : FindAllOpts) (q : Query) :
  findAll_prepare opts = Ok q ->
  run_before (so_before (fa_select opts)) (findAll_build opts) = Ok q
  /\ findAll_query opts = q.
Proof.
  intros H.
  assert (Hrun : run_before (so_before (fa_select opts)) (findAll_build opts) = Ok q).
  { rewrite <- H. symmetry. apply findAll_prepare_accepted. intros p Hp.
    destruct (Z.lt_ge_cases ((default (page p) 1 - 1) * default (limit p) 20)%Z 0%Z)
      as [Hneg|Hpos]; [|exact Hpos].
    rewrite (findAll_prepare_refused opts p Hp Hneg) in H. discriminate. }
  split; [exact Hrun|]. unfold findAll_query. now rewrite Hrun.
Qed.

Lemma findAll_prepare_select (o : SelectOpts) :
  so_before o = None ->
  findAll_prepare (of_select o) = Ok (findAll_build (of_select o)).
Proof.
  intros Hbef. rewrite findAll_prepare_accepted by (intros p Hp; discriminate).
  simpl. now rewrite Hbef.
Qed.

Lemma findAll_prepare_page (o : SelectOpts) (p l : Z) :
  so_before o = None -> (1 <= p)%Z -> (0 <= l)%Z ->
  findAll_prepare (page_opts o p l) = Ok (findAll_build (page_opts o p l)).
Proof.
  intros Hbef Hp Hl. rewrite findAll_prepare_accepted.
  - simpl. now rewrite Hbef.
  - intros pg Hpg. injection Hpg as <-. simpl. nia.
Qed.

Section SelectClaims.

Context {DB : Type} (exec : Query -> DB -> Result Response * DB).

(** What is thrown before the [await] ends the call, and nothing is
    awaited. *)
Lemma findAll_thrown (opts : FindAllOpts) (w : World DB) (e : Error) :
  findAll_prepare opts = Err e -> findAll exec opts w = (Err e, w).
Proof.
  intros H. unfold findAll. now rewrite H.
Qed.

Lemma findAll_issued (opts : FindAllOpts) (w : World DB) (q : Query) :
  findAll_prepare opts = Ok q ->
  issued (snd (findAll exec opts w)) = (issued w ++ [q])%list.
Proof.
  intros H. unfold findAll, await. rewrite H.
  destruct (exec q (db w)) as [[[rows|n]|e] d']; reflexivity.
Qed.

Lemma findAll_rows (opts : FindAllOpts) (w : World DB) (q : Query)
    (rows : list JsObject) (d' : DB) :
  findAll_prepare opts = Ok q ->
  exec q (db w) = (Ok (RespRows rows), d') ->
  findAll exec opts w
  = (Ok (map (wrap_row (so_conn (fa_select opts)) (so_tableName (fa_select opts))) rows),
     mkWorld d' (issued w ++ [q])).
Proof.
  intros H Hx. unfold findAll, await. now rewrite H, Hx.
Qed.

Lemma findAll_rejected (opts : FindAllOpts) (w : World DB) (q : Query)
    (e : Error) (d' : DB) :
  findAll_prepare opts = Ok q ->
  exec q (db w) = (Err e, d') ->
  findAll exec opts w = (Err e, mkWorld d' (issued w ++ [q])).
Proof.
  intros H Hx. unfold findAll, await. now rewrite H, Hx.
Qed.

Lemma find_issued (opts : SelectOpts) (w : World DB) (q : Query) :
  findAll_prepare (of_select opts) = Ok q ->
  issued (snd (find exec opts w)) = (issued w ++ [q])%list.
Proof.
  intros H. unfold find. rewrite <- (findAll_issued (of_select opts) w q H).
  destruct (findAll exec (of_select opts) w) as [[rows|e] w']; reflexivity.
Qed.

Lemma countAll_issued (opts : CountAllOpts) (w : World DB) :
  issued (snd (countAll exec opts w)) = (issued w ++ [countAll_query opts])%list.
Proof.
  unfold countAll, await.
  destruct (exec (countAll_query opts) (db w)) as [[[[|first rest]|n]|e] d'];
    reflexivity.
Qed.

(** C3. [findAll] builds its query in a fixed order: the [where] callback
    if there is one, the [whereNull] filter on [includeDeletedCol]
    (default [time_deleted]) unless [includeDeleted] is true, then, when
    [pagination] is given, [LIMIT limit] (default 20) and
    [OFFSET (page - 1) * limit] (page default 1, so the first page starts
    at offset 0), and last the [before] hook if there is one, which is
    handed the query so built. The offset is stated for numbers whose
    arithmetic is exact; the builder refuses a negative one, and the call
    then fails with the builder's error, as it fails with what the hook
    throws: in both cases nothing is awaited. Otherwise the query is the
    one query awaited. Every record of its result is wrapped as a [Row] on
    the same connection and table; an empty result gives an empty array,
    not a failure, and a rejection of the query is the failure of the
    call. *)
Theorem findAll_spec (opts : FindAllOpts) (w : World DB) :
  let o := fa_select opts in
  let built :=
    mkQuery (so_conn o) (so_tableName o)
      (match so_where o with
       | Some f => [SWhereFn f]
       | None => []
       end
       ++ match so_includeDeleted o with
          | Some true => []
          | _ => [SWhereNull (default (so_includeDeletedCol o) "time_deleted")]
          end
       ++ match fa_pagination opts with
          | Some p =>
              [SLimit (default (limit p) 20%Z);
               SOffset ((default (page p) 1 - 1) * default (limit p) 20)%Z]
          | None => []
          end) in
  let hooked :=
    match so_before o with
    | Some hook => hook built
    | None => Ok built
    end in
  ((forall p, fa_pagination opts = Some p ->
              exact_offset (default (page p) 1%Z) (default (limit p) 20%Z) = true) ->
   findAll_prepare opts
   = match fa_pagination opts with
     | Some p =>
         if ((default (page p) 1 - 1) * default (limit p) 20 <? 0)%Z
         then Err (JsError "A non-negative integer must be provided to offset.")
         else hooked
     | None => hooked
     end)
  /\ (forall p, fa_pagination opts = Some p -> default (page p) 1%Z = 1%Z ->
                In (SOffset 0) (qStmts built))
  /\ (forall e, findAll_prepare opts = Err e -> findAll exec opts w = (Err e, w))
  /\ (forall q,
        findAll_prepare opts = Ok q ->
        issued (snd (findAll exec opts w)) = (issued w ++ [q])%list
        /\ (forall rows d',
              exec q (db w) = (Ok (RespRows rows), d') ->
              exists result,
                findAll exec opts w = (Ok result, mkWorld d' (issued w ++ [q]))
                /\ map rowData result = rows
                /\ (forall r, In r result ->
                      initialConn r = so_conn o
                      /\ connection r = VConn (so_conn o)
                      /\ tableName r = so_tableName o)
                /\ (rows = [] -> result = []))
        /\ (forall e d',
              exec q (db w) = (Err e, d') ->
              findAll exec opts w = (Err e, mkWorld d' (issued w ++ [q])))).
Proof.
  intros o built hooked.
  assert (Hbuilt : findAll_build opts = built) by apply findAll_build_stmts.
  split; [|split; [|split]].
  - intros _. destruct (fa_pagination opts) as [p|] eqn:Hp.
    + destruct (Z.ltb_spec ((default (page p) 1 - 1) * default (limit p) 20)%Z 0%Z)
        as [Hneg|Hpos].
      * exact (findAll_prepare_refused opts p Hp Hneg).
      * rewrite findAll_prepare_accepted, Hbuilt; [reflexivity|].
        intros p' Hp'. rewrite Hp in Hp'. now injection Hp' as <-.
    + rewrite findAll_prepare_accepted, Hbuilt; [reflexivity|].
      intros p' Hp'. rewrite Hp in Hp'. discriminate.
  - intros p Hp Hpage. subst built. simpl.
    apply in_or_app. right. apply in_or_app. right.
    rewrite Hp, Hpage. right. left. reflexivity.
  - apply findAll_thrown.
  - intros q Hq. split; [now apply findAll_issued|]. split.
    + intros rows d' Hx. eexists.
      split; [exact (findAll_rows opts w q rows d' Hq Hx)|].
      split; [|split].
      * rewrite map_map. simpl. apply map_id.
      * intros r Hin. apply in_map_iff in Hin. destruct Hin as (rd & <- & _).
        repeat split.
      * intros ->. reflexivity.
    + intros e d' Hx. exact (findAll_rejected opts w q e d' Hq Hx).
Qed.

(** C7. [find(opts)] runs [findAll(opts)], in which no [pagination] is
    seen, and returns its first element when there is one and [null]
    when the result is empty. *)
Theorem find_spec (opts : SelectOpts) (w : World DB) :
  find exec opts w
  = match findAll exec (of_select opts) w with
    | (Ok (r :: _), w') => (Ok (Just r), w')
    | (Ok [], w') => (Ok Null, w')
    | (Err e, w') => (Err e, w')
    end.
Proof.
  unfold find.
  destruct (findAll exec (of_select opts) w) as [[[|r rest]|e] w']; reflexivity.
Qed.

End SelectClaims.

(** The pagination test: six records, pages of four; page 0 is refused. *)
Lemma findAll_spec_witness :
  (exists result w',
      findAll Mem.exec
        {| fa_select := select_opts None;
           fa_pagination := Some {| page := Some 2%Z; limit := Some 4%Z |} |}
        kansen_world = (Ok result, w')
      /\ map rowData result
         = [kansen_record 5 "odin" "Odin" 45;
            kansen_record 6 "friedrich_der_grosse" "Friedrich der Grosse" 55])
  /\ findAll_prepare
       {| fa_select := select_opts None;
          fa_pagination := Some {| page := None; limit := Some 4%Z |} |}
     = Ok (mkQuery testConn "kansen"
             [SWhereNull "time_deleted"; SLimit 4; SOffset 0])
  /\ findAll Mem.exec
       {| fa_select := select_opts None;
          fa_pagination := Some {| page := Some 0%Z; limit := Some 4%Z |} |}
       kansen_world
     = (Err (JsError "A non-negative integer must be provided to offset."),
        kansen_world).
Proof.
  split; [|split].
  - destruct (proj1 (proj2 (proj2 (proj2 (proj2 (findAll_spec Mem.exec
        {| fa_select := select_opts None;
           fa_pagination := Some {| page := Some 2%Z; limit := Some 4%Z |} |}
        kansen_world)))
        (mkQuery testConn "kansen"
           [SWhereNull "time_deleted"; SLimit 4; SOffset 4]) eq_refl))
      [kansen_record 5 "odin" "Odin" 45;
       kansen_record 6 "friedrich_der_grosse" "Friedrich der Grosse" 55]
      (db kansen_world))
      as (result & Hrun & Hrows & _).
    + reflexivity.
    + exists result. eexists. split; [exact Hrun | exact Hrows].
  - rewrite (proj1 (findAll_spec Mem.exec
        {| fa_select := select_opts None;
           fa_pagination := Some {| page := None; limit := Some 4%Z |} |}
        kansen_world)).
    + reflexivity.
    + intros p Hp. injection Hp as <-. reflexivity.
  - apply (proj1 (proj2 (proj2 (findAll_spec Mem.exec
        {| fa_select := select_opts None;
           fa_pagination := Some {| page := Some 0%Z; limit := Some 4%Z |} |}
        kansen_world)))).
    reflexivity.
Defined.

(** The two [find] tests: a record that is there, and one that is not. *)
Example find_z23 :
  fst (find Mem.exec (select_opts (Some (column_is "score" (VNum 30)))) kansen_world)
  = Ok (Just z23Row).
Proof. reflexivity. Qed.

Example find_graf_zeppelin :
  fst (find Mem.exec (select_opts (Some (column_is "key" (VStr "graf_zeppelin"))))
         kansen_world)
  = Ok Null.
Proof. reflexivity. Qed.

(** [find] on the score of [z23], through [findAll]. *)
Lemma find_spec_witness :
  fst (find Mem.exec (select_opts (Some (column_is "score" (VNum 30)))) kansen_world)
  = Ok (Just z23Row).
Proof.
  rewrite (find_spec Mem.exec (select_opts (Some (column_is "score" (VNum 30))))
             kansen_world).
  reflexivity.
Defined.

(* ================================================================== *)
(** * The soft-delete filter *)

Module MemFacts.

Import Mem.

Lemma matches_stmt (ss : list Stmt) (s : Stmt) (row : JsObject) :
  In s ss -> matches ss row = true -> stmt_accepts s row = true.
Proof.
  intros Hin Hm. unfold matches in Hm.
  rewrite forallb_forall in Hm. now apply Hm.
Qed.

Lemma matches_whereNull (ss : list Stmt) (col : string) (row : JsObject) :
  In (SWhereNull col) ss -> matches ss row = true ->
  is_null (obj_own row col) = true.
Proof.
  intros Hin Hm. exact (matches_stmt ss (SWhereNull col) row Hin Hm).
Qed.

Lemma in_skipn {A : Type} (n : nat) (l : list A) (x : A) :
  In x (skipn n l) -> In x l.
Proof.
  revert l. induction n as [|n IH]; intros [|y l]; simpl; auto.
Qed.

Lemma in_firstn {A : Type} (n : nat) (l : list A) (x : A) :
  In x (firstn n l) -> In x l.
Proof.
  revert l. induction n as [|n IH]; intros [|y l]; simpl; intuition.
Qed.

Lemma window_in (ss : list Stmt) (rows : list JsObject) (row : JsObject) :
  In row (window ss rows) -> In row rows.
Proof.
  unfold window.
  destruct (limit_of ss None), (offset_of ss None); intros H;
    repeat (first [apply in_firstn in H | apply in_skipn in H]); exact H.
Qed.

Lemma select_rows_in (ss : list Stmt) (rows : list JsObject) (row : JsObject) :
  In row (select_rows ss rows) -> In row rows /\ matches ss row = true.
Proof.
  intros H. apply window_in in H. now apply filter_In in H.
Qed.

(** Filtering twice, the second time by a weaker condition. *)
Lemma filter_weaker {A : Type} (P Q : A -> bool) (l : list A) :
  (forall x, P x = true -> Q x = true) ->
  filter P (filter Q l) = filter P l.
Proof.
  intros Himp. induction l as [|x l IH]; simpl; [reflexivity|].
  destruct (Q x) eqn:HQ; simpl.
  - now rewrite IH.
  - destruct (P x) eqn:HP; [|exact IH].
    apply Himp in HP. congruence.
Qed.

(** A query with the filter gives the same on the table from which the
    records with a value in the column have been taken away. *)
Lemma matches_without_deleted (ss : list Stmt) (col : string)
    (rows : list JsObject) :
  In (SWhereNull col) ss ->
  filter (matches ss) (filter (fun row => is_null (obj_own row col)) rows)
  = filter (matches ss) rows.
Proof.
  intros Hin. apply filter_weaker. intros row. now apply matches_whereNull.
Qed.

Lemma exec_world (q : Query) (rows : list JsObject) :
  table_rows (tables (db (world (qTable q) rows))) (qTable q) = Some rows.
Proof. simpl. now rewrite String.eqb_refl. Qed.

(** The statements [findAll] chains make a select query. *)
Lemma findAll_build_select (opts : FindAllOpts) :
  update_of (qStmts (findAll_build opts)) None = None
  /\ is_delete (qStmts (findAll_build opts)) = false
  /\ count_of (qStmts (findAll_build opts)) None = None.
Proof.
  rewrite findAll_build_stmts.
  destruct opts as [[c t wh incl col bef] pag].
  unfold where_part, soft_delete_part, pagination_part; simpl.
  destruct wh as [f|], incl as [[|]|], pag as [p|]; repeat split.
Qed.

Lemma countAll_query_count (opts : CountAllOpts) :
  update_of (qStmts (countAll_query opts)) None = None
  /\ is_delete (qStmts (countAll_query opts)) = false
  /\ count_of (qStmts (countAll_query opts)) None
     = Some ("count", count_columns (default (ca_countBy opts) (CountCols ["id"]))).
Proof.
  rewrite countAll_query_stmts.
  destruct opts as [[c t wh incl col bef] cb].
  unfold where_part, soft_delete_part; simpl.
  destruct wh as [f|], incl as [[|]|]; repeat split.
Qed.

Lemma findAll_mem (opts : FindAllOpts) (rows : list JsObject) :
  findAll_prepare opts = Ok (findAll_build opts) ->
  fst (findAll exec opts (world (so_tableName (fa_select opts)) rows))
  = Ok (map (wrap_row (so_conn (fa_select opts)) (so_tableName (fa_select opts)))
          (select_rows (qStmts (findAll_build opts)) rows)).
Proof.
  intros Hq.
  assert (Ht : qTable (findAll_build opts) = so_tableName (fa_select opts)).
  { now rewrite findAll_build_stmts. }
  destruct (findAll_build_select opts) as (Hu & Hd & Hc).
  unfold findAll, await. rewrite Hq. unfold exec.
  rewrite <- Ht, exec_world, Hu, Hd, Hc. reflexivity.
Qed.

Lemma countAll_mem (opts : CountAllOpts) (rows : list JsObject) :
  fst (countAll exec opts (world (so_tableName (ca_select opts)) rows))
  = Ok (VNum (count_rows (qStmts (countAll_query opts))
                (count_columns (default (ca_countBy opts) (CountCols ["id"])))
                rows)).
Proof.
  assert (Ht : qTable (countAll_query opts) = so_tableName (ca_select opts)).
  { now rewrite countAll_query_stmts. }
  destruct (countAll_query_count opts) as (Hu & Hd & Hc).
  unfold countAll, await, exec.
  rewrite <- Ht, exec_world, Hu, Hd, Hc. reflexivity.
Qed.

End MemFacts.

Lemma soft_delete_part_in (o : SelectOpts) :
  so_includeDeleted o <> Some true ->
  In (SWhereNull (default (so_includeDeletedCol o) "time_deleted")) (soft_delete_part o).
Proof.
  intros H. unfold soft_delete_part.
  destruct (so_includeDeleted o) as [[|]|]; simpl; auto.
Qed.

Lemma where_part_no_whereNull (o : SelectOpts) (c : string) :
  ~ In (SWhereNull c) (where_part o).
Proof.
  unfold where_part. destruct (so_where o); simpl; intuition discriminate.
Qed.

Lemma pagination_part_no_whereNull (p : option Pagination) (c : string) :
  ~ In (SWhereNull c) (pagination_part p).
Proof.
  unfold pagination_part. destruct p; simpl; intuition discriminate.
Qed.

Lemma findAll_excludes_deleted (opts : FindAllOpts) (rows : list JsObject) :
  so_includeDeleted (fa_select opts) <> Some true ->
  findAll_prepare opts = Ok (findAll_build opts) ->
  exists result,
    fst (findAll Mem.exec opts (Mem.world (so_tableName (fa_select opts)) rows))
    = Ok result
    /\ forall r, In r result ->
         In (rowData r) rows
         /\ Mem.is_null
              (obj_own (rowData r)
                 (default (so_includeDeletedCol (fa_select opts)) "time_deleted"))
            = true.
Proof.
  intros Hincl Hq. eexists. split; [now apply MemFacts.findAll_mem|].
  intros r Hin. apply in_map_iff in Hin. destruct Hin as (rd & <- & Hrd).
  apply MemFacts.select_rows_in in Hrd. destruct Hrd as [Hrows Hm].
  split; [exact Hrows|]. simpl.
  apply (MemFacts.matches_whereNull (qStmts (findAll_build opts))); [|exact Hm].
  rewrite findAll_build_stmts. simpl.
  apply in_or_app. right. apply in_or_app. left.
  now apply soft_delete_part_in.
Qed.

Lemma findAll_includes_deleted (o : SelectOpts) (rows : list JsObject) :
  so_includeDeleted o = Some true ->
  so_before o = None ->
  fst (findAll Mem.exec (of_select o) (Mem.world (so_tableName o) rows))
  = Ok (map (wrap_row (so_conn o) (so_tableName o)) (filter (passes_where o) rows)).
Proof.
  intros Hincl Hbef.
  pose proof (MemFacts.findAll_mem (of_select o) rows
                (findAll_prepare_select o Hbef)) as Hrun.
  simpl in Hrun. rewrite Hrun.
  do 2 f_equal. rewrite findAll_build_stmts. simpl.
  unfold soft_delete_part, where_part, passes_where. rewrite Hincl.
  destruct (so_where o) as [f|]; simpl; unfold Mem.select_rows, Mem.window; simpl;
    apply filter_ext; intros row; unfold Mem.matches; simpl;
    [apply andb_true_r | reflexivity].
Qed.

Lemma soft_delete_part_on (o : SelectOpts) :
  so_includeDeleted o <> Some true ->
  soft_delete_part o = [SWhereNull (default (so_includeDeletedCol o) "time_deleted")].
Proof.
  intros H. unfold soft_delete_part.
  destruct (so_includeDeleted o) as [[|]|]; [now elim H | reflexivity | reflexivity].
Qed.

Lemma soft_delete_part_off (o : SelectOpts) :
  so_includeDeleted o = Some true -> soft_delete_part o = [].
Proof.
  intros H. unfold soft_delete_part. now rewrite H.
Qed.

Lemma pagination_part_window (p : option Pagination) (s : Stmt) :
  In s (pagination_part p) -> exists n, s = SLimit n \/ s = SOffset n.
Proof.
  unfold pagination_part. destruct p as [p|]; simpl; [|intros []].
  intros [<-|[<-|[]]]; eexists; [left | right]; reflexivity.
Qed.

(** C1, amended. When [includeDeleted] is unset or false, [findAll], [find]
    and [countAll] chain the [whereNull] filter on [includeDeletedCol]
    (default [time_deleted]) right after the [where] callback, if there is
    one, and before the statements of pagination or the count. [countAll]
    awaits the query with the filter in it, and so do [findAll] and [find]
    when no [before] hook is given: a record with a value in that column
    is not among the rows returned, and is not counted. When
    [includeDeleted] is true the filter is not chained: the [where]
    callback is followed by the pagination or the count, and without a
    hook [findAll] returns every record that passes the caller's own
    condition, deleted or not. A [before] hook is handed the query with
    the filter on it, and what it makes of the query is what is
    awaited. *)
Theorem soft_delete_filter (o : SelectOpts) (pag : option Pagination)
    (cb : option CountBy) (rows : list JsObject) :
  let col := default (so_includeDeletedCol o) "time_deleted" in
  let fa := mkFindAllOpts o pag in
  let ca := mkCountAllOpts o cb in
  let w := Mem.world (so_tableName o) rows in
  ((forall q, findAll_prepare fa = Ok q ->
              run_before (so_before o) (findAll_build fa) = Ok q
              /\ issued (snd (findAll Mem.exec fa w)) = [q])
   /\ (forall q, findAll_prepare (of_select o) = Ok q ->
                 run_before (so_before o) (findAll_build (of_select o)) = Ok q
                 /\ issued (snd (find Mem.exec o w)) = [q])
   /\ issued (snd (countAll Mem.exec ca w)) = [countAll_query ca])
  /\ (so_includeDeleted o <> Some true ->
     (exists window,
         qStmts (findAll_build fa) = (where_part o ++ SWhereNull col :: window)%list
         /\ (forall s, In s window -> exists n, s = SLimit n \/ s = SOffset n)
         /\ (pag = None -> window = []))
     /\ qStmts (findAll_build (of_select o)) = (where_part o ++ [SWhereNull col])%list
     /\ qStmts (countAll_query ca)
        = (where_part o ++ [SWhereNull col; SCount "count" (counted_columns cb)])%list
     /\ fst (countAll Mem.exec ca w)
        = fst (countAll Mem.exec ca
                 (Mem.world (so_tableName o)
                    (filter (fun row => Mem.is_null (obj_own row col)) rows)))
     /\ (so_before o = None ->
         (forall q,
             findAll_prepare fa = Ok q ->
             q = findAll_build fa
             /\ exists result,
                  fst (findAll Mem.exec fa w) = Ok result
                  /\ forall r, In r result ->
                       In (rowData r) rows
                       /\ Mem.is_null (obj_own (rowData r) col) = true)
         /\ issued (snd (find Mem.exec o w)) = [findAll_build (of_select o)]
         /\ (exists found,
                fst (find Mem.exec o w) = Ok found
                /\ forall r, found = Just r ->
                     In (rowData r) rows
                     /\ Mem.is_null (obj_own (rowData r) col) = true)))
  /\ (so_includeDeleted o = Some true ->
      (exists window,
          qStmts (findAll_build fa) = (where_part o ++ window)%list
          /\ (forall s, In s window -> exists n, s = SLimit n \/ s = SOffset n)
          /\ (pag = None -> window = []))
      /\ qStmts (countAll_query ca)
         = (where_part o ++ [SCount "count" (counted_columns cb)])%list
      /\ (so_before o = None ->
          fst (findAll Mem.exec (of_select o) w)
          = Ok (map (wrap_row (so_conn o) (so_tableName o))
                  (filter (passes_where o) rows)))).
Proof.
  intros col fa ca w. split; [|split].
  - split; [|split].
    + intros q Hq. split; [exact (proj1 (findAll_prepare_ok fa q Hq))|].
      subst w. now rewrite (findAll_issued Mem.exec fa _ q Hq).
    + intros q Hq. split; [exact (proj1 (findAll_prepare_ok (of_select o) q Hq))|].
      subst w. now rewrite (find_issued Mem.exec o _ q Hq).
    + subst w. now rewrite countAll_issued.
  - intros Hincl.
    assert (Hfa : qStmts (findAll_build fa)
                  = (where_part o ++ SWhereNull col :: pagination_part pag)%list).
    { rewrite findAll_build_stmts. simpl. now rewrite soft_delete_part_on. }
    assert (Hfi : qStmts (findAll_build (of_select o))
                  = (where_part o ++ [SWhereNull col])%list).
    { rewrite findAll_build_stmts. simpl. now rewrite soft_delete_part_on. }
    assert (Hca : qStmts (countAll_query ca)
                  = (where_part o
                     ++ [SWhereNull col; SCount "count" (counted_columns cb)])%list).
    { rewrite countAll_query_stmts. simpl. now rewrite soft_delete_part_on. }
    split.
    { exists (pagination_part pag). split; [exact Hfa|]. split.
      - apply pagination_part_window.
      - now intros ->. }
    split; [exact Hfi|]. split; [exact Hca|]. split.
    + subst w. rewrite !(MemFacts.countAll_mem ca). unfold Mem.count_rows.
      rewrite (MemFacts.matches_without_deleted _ col rows); [reflexivity|].
      rewrite Hca. apply in_or_app. right. now left.
    + intros Hbef. split; [|split].
      * intros q Hq.
        assert (Hqb : q = findAll_build fa).
        { destruct (findAll_prepare_ok fa q Hq) as [Hrun _].
          simpl in Hrun. rewrite Hbef in Hrun. simpl in Hrun. congruence. }
        split; [exact Hqb|]. subst q.
        exact (findAll_excludes_deleted fa rows Hincl Hq).
      * subst w.
        now rewrite (find_issued Mem.exec o _ _ (findAll_prepare_select o Hbef)).
      * destruct (findAll_excludes_deleted (of_select o) rows Hincl
                    (findAll_prepare_select o Hbef))
          as (result & Hrun & Hall).
        unfold find.
        simpl in Hrun. subst w.
        destruct (findAll Mem.exec (of_select o) (Mem.world (so_tableName o) rows))
          as [res w'].
        simpl in Hrun. subst res.
        destruct result as [|r rest].
        -- exists Null. split; [reflexivity|]. intros r Hr. discriminate.
        -- exists (Just r). split; [reflexivity|].
           intros r' Hr'. injection Hr' as <-. apply Hall. now left.
  - intros Hincl. split; [|split].
    + exists (pagination_part pag). split; [|split].
      * rewrite findAll_build_stmts. simpl. now rewrite soft_delete_part_off.
      * apply pagination_part_window.
      * now intros ->.
    + rewrite countAll_query_stmts. simpl. now rewrite soft_delete_part_off.
    + intros Hbef. now apply findAll_includes_deleted.
Qed.

(** The soft-delete test: once [karlsruhe] is deleted, a plain [find] on
    its key gives [null], and with [includeDeleted] the record is back. *)
Lemma soft_delete_filter_witness :
  (exists found,
      fst (find Mem.exec (select_opts (Some (column_is "key" (VStr "karlsruhe"))))
             kansen_deleted_world) = Ok found
      /\ forall r, found = Just r ->
           Mem.is_null (obj_own (rowData r) "time_deleted") = true)
  /\ fst (findAll Mem.exec
            (of_select
               {| so_conn := testConn; so_tableName := "kansen";
                  so_where := Some (column_is "key" (VStr "karlsruhe"));
                  so_includeDeleted := Some true; so_includeDeletedCol := None;
                  so_before := None |})
            kansen_deleted_world)
     = Ok [karlsruheDeletedRow].
Proof.
  split.
  - destruct (proj1 (proj2 (soft_delete_filter
               (select_opts (Some (column_is "key" (VStr "karlsruhe")))) None None
               [obj_set (kansen_record 1 "karlsruhe" "Karlsruhe" 10)
                  "time_deleted" (VDate 5);
                kansen_record 2 "leipzig" "Leipzig" 20])))
      as (_ & _ & _ & _ & Hfind).
    + discriminate.
    + destruct (Hfind eq_refl) as (_ & _ & found & Hrun & Hall).
      exists found. split; [exact Hrun|]. intros r Hr. now apply Hall.
  - exact (proj2 (proj2 (proj2 (proj2 (soft_delete_filter
             {| so_conn := testConn; so_tableName := "kansen";
                so_where := Some (column_is "key" (VStr "karlsruhe"));
                so_includeDeleted := Some true; so_includeDeletedCol := None;
                so_before := None |} None None
             [obj_set (kansen_record 1 "karlsruhe" "Karlsruhe" 10)
                "time_deleted" (VDate 5);
              kansen_record 2 "leipzig" "Leipzig" 20])) eq_refl)) eq_refl).
Defined.

(** C1 as stated fails for a call whose [before] hook clears the
    conditions: [includeDeleted] is unset, yet the awaited query has no
    filter and the deleted record is returned. *)
Lemma findAll_before_clears_filter :
  so_includeDeleted clearing_opts = None
  /\ ~ In (SWhereNull "time_deleted") (qStmts (findAll_query (of_select clearing_opts)))
  /\ fst (findAll Mem.exec (of_select clearing_opts) kansen_deleted_world)
     = Ok [karlsruheDeletedRow;
           wrap_row testConn "kansen" (kansen_record 2 "leipzig" "Leipzig" 20)]
  /\ timeDeleted karlsruheDeletedRow = Ok (VDate 5)
  /\ fst (find Mem.exec clearing_opts kansen_deleted_world) = Ok (Just karlsruheDeletedRow).
Proof.
  repeat split. simpl. intuition.
Qed.

(** The count test: four scores are at least 30. *)
Example countAll_score_at_least_30 :
  fst (countAll Mem.exec
         {| ca_select := select_opts (Some (score_at_least 30)); ca_countBy := None |}
         kansen_world)
  = Ok (VNum 4).
Proof. reflexivity. Qed.

(** The count test after soft deletes: the records with an odd score are
    deleted, and three of those scoring at least 20 remain. *)
Example countAll_excludes_deleted :
  match findAll Mem.exec
          {| fa_select := select_opts (Some odd_score); fa_pagination := None |}
          kansen_world with
  | (Ok rows, w) =>
      fst (countAll Mem.exec
             {| ca_select := select_opts (Some (score_at_least 20)); ca_countBy := None |}
             (delete_each rows w))
  | (Err e, _) => Err e
  end
  = Ok (VNum 3).
Proof. reflexivity. Qed.

(* ================================================================== *)
(** * Further properties of rows *)

Lemma obj_get_in_nodup (o : JsObject) (k : string) (v : JsValue) :
  NoDup (obj_keys o) -> In (k, v) o -> obj_get o k = v.
Proof.
  induction o as [|[k' v'] rest IH]; simpl; intros Hnd Hin; [contradiction|].
  inversion Hnd as [|? ? Hnin Hnd']; subst.
  destruct Hin as [Heq|Hin].
  - injection Heq as -> ->. now rewrite String.eqb_refl.
  - destruct (k' =? k) eqn:E; [|now apply IH].
    apply String.eqb_eq in E. subst k'. exfalso. apply Hnin.
    apply in_map_iff. now exists (k, v).
Qed.

Lemma in_obj_keys (o : JsObject) (k : string) (v : JsValue) :
  In (k, v) o -> In k (obj_keys o).
Proof.
  intros Hin. apply in_map_iff. now exists (k, v).
Qed.

(** Reading a column looks at [rowData] and, for the message, [tableName]. *)
Lemma getColumn_with_conn (r : Row) (v : JsValue) (col : string) :
  getColumn (with_conn r v) col = getColumn r col.
Proof. reflexivity. Qed.

Lemma primaryKey_loop_with_conn (r : Row) (v : JsValue) (cols : list string) :
  forall key, primaryKey_loop (with_conn r v) cols key = primaryKey_loop r cols key.
Proof.
  induction cols as [|c rest IH]; intros key; simpl; [reflexivity|].
  rewrite getColumn_with_conn. destruct (getColumn r c); [apply IH | reflexivity].
Qed.

Lemma primaryKey_with_conn (r : Row) (v : JsValue) :
  primaryKey (with_conn r v) = primaryKey r.
Proof. apply primaryKey_loop_with_conn. Qed.

Lemma primaryKey_missing (r : Row) (p : string) :
  In p (primaryCols r) -> isColumn r p = false ->
  exists p', In p' (primaryCols r) /\ isColumn r p' = false
             /\ primaryKey r = Err (JsError (column_not_found p' (tableName r))).
Proof.
  intros Hin Hp.
  destruct (primaryKey_loop_err r (primaryCols r) [])
    as (pre & p' & post & Hsplit & _ & Hp' & Hrun).
  { now exists p. }
  exists p'. split; [|now split].
  rewrite Hsplit. apply in_or_app. right. now left.
Qed.

Lemma query_missing (r : Row) (p : string) :
  In p (primaryCols r) -> isColumn r p = false -> exists e, query r = Err e.
Proof.
  intros Hin Hp. unfold query.
  destruct (connection r); try (now exists TypeError).
  destruct (primaryKey_missing r p Hin Hp) as (p' & _ & _ & ->).
  now eexists.
Qed.

Section MoreWrites.

Context {DB : Type} (exec : Query -> DB -> Result Response * DB).

(** What a resolved [setColumns] tells about the call. *)
Lemma setColumns_ok_inv (data : JsObject) (r r' : Row) (w w' : World DB) :
  setColumns exec data r w = (Ok tt, r', w') ->
  (forall k, In k (obj_keys data) -> isColumn r k = true)
  /\ r' = with_rowData r (obj_assign (rowData r) data)
  /\ exists c key,
       connection r = VConn c /\ primaryKey r = Ok key
       /\ issued w'
          = (issued w ++ [mkQuery c (tableName r) [SWhereObj key; SUpdate data]])%list.
Proof.
  unfold setColumns.
  destruct (check_columns r (obj_keys data)) as [u|e] eqn:Hchk; [|discriminate].
  destruct (query r) as [q|e] eqn:Hq; [|discriminate].
  destruct (query_inv r q Hq) as (c & key & Hc & Hk & ->).
  unfold await, chain. simpl.
  destruct (exec _ (db w)) as [[resp|e] d']; [|discriminate].
  intros H. injection H as <- <-.
  split; [now apply (check_columns_inv r _ u)|]. split; [reflexivity|].
  now exists c, key.
Qed.

(** X1. [deletePermanently()] never changes the row, whatever the outcome.
    On a row that holds a connection and whose primary columns are present
    it awaits exactly one query, a delete on the row's table scoped to
    [primaryKey], and resolves or rejects as that query does; when a
    primary column is missing it fails with the column-not-found error and
    awaits nothing. *)
Theorem deletePermanently_spec (r : Row) (w : World DB) :
  snd (fst (deletePermanently exec r w)) = r
  /\ (forall c key,
        connection r = VConn c -> primaryKey r = Ok key ->
        deletePermanently exec r w
        = (match fst (exec (mkQuery c (tableName r) [SWhereObj key; SDelete]) (db w)) with
           | Ok _ => Ok tt
           | Err e => Err e
           end,
           r,
           mkWorld (snd (exec (mkQuery c (tableName r) [SWhereObj key; SDelete]) (db w)))
             (issued w ++ [mkQuery c (tableName r) [SWhereObj key; SDelete]])))
  /\ (forall c p,
        connection r = VConn c -> In p (primaryCols r) -> isColumn r p = false ->
        exists p',
          In p' (primaryCols r) /\ isColumn r p' = false
          /\ deletePermanently exec r w
             = (Err (JsError (column_not_found p' (tableName r))), r, w)).
Proof.
  split; [|split].
  - unfold deletePermanently. destruct (query r); [|reflexivity].
    destruct (await exec _ w) as [[resp|e] w']; reflexivity.
  - intros c key Hc Hk. unfold deletePermanently.
    rewrite (query_ok r c key Hc Hk). unfold await, chain. simpl.
    destruct (exec _ (db w)) as [[resp|e] d']; reflexivity.
  - intros c p Hc Hin Hp.
    destruct (primaryKey_missing r p Hin Hp) as (p' & Hin' & Hp' & Hk).
    exists p'. split; [exact Hin'|]. split; [exact Hp'|].
    unfold deletePermanently, query. now rewrite Hc, Hk.
Qed.

(** X3. Assigning to [connection] changes nothing the row reads: columns
    and the primary key are as before. Queries built afterwards are on the
    assigned connection, or on the connection of construction when the
    assigned value is falsy, and so is the update of a later [setColumns]. *)
Theorem query_follows_connection (r : Row) (value : JsValue) :
  rowData (set_connection r value) = rowData r
  /\ (forall col, getColumn (set_connection r value) col = getColumn r col)
  /\ primaryKey (set_connection r value) = primaryKey r
  /\ (forall c, js_or value (VConn (initialConn r)) = VConn c ->
        query (set_connection r value)
        = match primaryKey r with
          | Ok key => Ok (mkQuery c (tableName r) [SWhereObj key])
          | Err e => Err e
          end
        /\ forall data w q,
             In q (issued (snd (setColumns exec data (set_connection r value) w))) ->
             In q (issued w) \/ qConn q = c).
Proof.
  split; [reflexivity|]. split; [reflexivity|].
  split; [apply primaryKey_with_conn|].
  intros c Hc. split.
  - unfold query, set_connection, connection. simpl.
    rewrite Hc, primaryKey_with_conn. destruct (primaryKey r); reflexivity.
  - intros data w q Hin.
    destruct (setColumns_issued exec data (set_connection r value) w)
      as [Hsame|(_ & c' & key & Hc' & _ & Hiss)].
    + rewrite Hsame in Hin. now left.
    + rewrite Hiss in Hin. apply in_app_or in Hin.
      destruct Hin as [Hin|[<-|[]]]; [now left|]. right. simpl.
      unfold set_connection, connection in Hc'. simpl in Hc'. congruence.
Qed.

(** X4. After a [setColumns(data)] that resolved, [data] not having the key
    [__proto__]: a key of [data] given a value other than [undefined]
    reads back as that value, a key given [undefined] reads as a missing
    column, every other column reads as before; [rowData] has the keys it
    had and those of [data], and the same keys in the same order when the
    keys of [data] were all among them. *)
Theorem setColumns_readback (data : JsObject) (r r' : Row) (w w' : World DB) :
  setColumns exec data r w = (Ok tt, r', w') ->
  NoDup (obj_keys data) ->
  ~ In "__proto__" (obj_keys data) ->
  (forall k v, In (k, v) data -> v <> VUndefined -> getColumn r' k = Ok v)
  /\ (forall k, In (k, VUndefined) data ->
        getColumn r' k = Err (JsError (column_not_found k (tableName r))))
  /\ (forall k, ~ In k (obj_keys data) -> getColumn r' k = getColumn r k)
  /\ (forall k, In k (obj_keys (rowData r'))
                <-> In k (obj_keys (rowData r)) \/ In k (obj_keys data))
  /\ ((forall k, In k (obj_keys data) -> In k (obj_keys (rowData r))) ->
      obj_keys (rowData r') = obj_keys (rowData r)).
Proof.
  intros Hrun Hnd _.
  destruct (setColumns_ok_inv data r r' w w' Hrun) as (Hall & -> & _).
  assert (Hget : forall k v, In (k, v) data ->
                   obj_get (obj_assign (rowData r) data) k = v).
  { intros k v Hin.
    rewrite obj_get_assign_in by (try assumption; now apply (in_obj_keys data k v)).
    now apply obj_get_in_nodup. }
  split; [|split; [|split; [|split]]].
  - intros k v Hin Hv. unfold getColumn, isColumn. simpl.
    rewrite (Hget k v Hin).
    destruct (typeof v =? "undefined") eqn:E; [|reflexivity].
    apply typeof_undefined in E. contradiction.
  - intros k Hin. unfold getColumn, isColumn. simpl.
    now rewrite (Hget k VUndefined Hin).
  - intros k Hnin. unfold getColumn, isColumn. simpl.
    now rewrite obj_get_assign_other.
  - intros k. simpl. apply obj_keys_assign_iff.
  - simpl. apply obj_assign_same_keys.
Qed.

(** X5. Once a [setColumns(data)] that gives the column [k], not
    [__proto__], the value [undefined] has resolved, the row takes [k] for
    a missing column: [getColumn(k)] and every later [setColumn(k, v)] fail
    with the error [Column '<k>' does not exist for table <tableName>], and
    nothing is awaited; when [k] is a primary column, every later
    [setColumns] and [deletePermanently] fails without awaiting
    anything. *)
Theorem undefined_write_loses_column (data : JsObject) (k : string)
    (r r' : Row) (w w' : World DB) :
  setColumns exec data r w = (Ok tt, r', w') ->
  NoDup (obj_keys data) ->
  In (k, VUndefined) data ->
  k <> "__proto__" ->
  isColumn r k = true
  /\ isColumn r' k = false
  /\ getColumn r' k
     = Err (JsError ("Column '" ++ k ++ "' does not exist for table " ++ tableName r))
  /\ (forall v w2,
        setColumn exec k v r' w2
        = (Err (JsError ("Column '" ++ k ++ "' does not exist for table "
                         ++ tableName r)), r', w2))
  /\ (In k (primaryCols r) ->
      forall data2 w2,
        (exists e, setColumns exec data2 r' w2 = (Err e, r', w2))
        /\ (exists e, deletePermanently exec r' w2 = (Err e, r', w2))).
Proof.
  intros Hrun Hnd Hin _.
  destruct (setColumns_ok_inv _ r r' w w' Hrun) as (Hall & -> & _).
  assert (Hk' : isColumn (with_rowData r (obj_assign (rowData r) data)) k = false).
  { apply isColumn_missing. simpl.
    rewrite obj_get_assign_in
      by (try assumption; now apply (in_obj_keys data k VUndefined)).
    now apply obj_get_in_nodup. }
  split; [apply Hall; now apply (in_obj_keys data k VUndefined)|].
  split; [exact Hk'|]. split; [|split].
  - now apply getColumn_missing.
  - intros v w2. unfold setColumn. apply setColumns_invalid.
    cbn [check_columns obj_keys map fst]. now rewrite Hk'.
  - intros Hp data2 w2.
    destruct (query_missing
                (with_rowData r (obj_assign (rowData r) data)) k Hp Hk')
      as (e & Hq).
    split.
    + unfold setColumns.
      destruct (check_columns _ (obj_keys data2)) as [u|e']; [|now eexists].
      rewrite Hq. now eexists.
    + unfold deletePermanently. rewrite Hq. now eexists.
Qed.

End MoreWrites.

Lemma primaryKey_ok_cols (r : Row) (key : JsObject) :
  primaryKey r = Ok key -> forall p, In p (primaryCols r) -> isColumn r p = true.
Proof.
  intros Hk p Hin. destruct (isColumn r p) eqn:Hp; [reflexivity|].
  destruct (primaryKey_missing r p Hin Hp) as (p' & _ & _ & Herr). congruence.
Qed.

Lemma obj_overwrite_append (o : JsObject) (k : string) (a b : JsValue) :
  ~ In k (obj_keys o) ->
  obj_overwrite (o ++ [(k, a)])%list k b = (o ++ [(k, b)])%list.
Proof.
  induction o as [|[k' v'] rest IH]; simpl; intros Hnin.
  - now rewrite String.eqb_refl.
  - destruct (k' =? k) eqn:E.
    + apply String.eqb_eq in E. exfalso. apply Hnin. now left.
    + f_equal. apply IH. intros Hin. apply Hnin. now right.
Qed.

Lemma obj_overwrite_create (o : JsObject) (k : string) (n : N) (a b : JsValue) :
  ~ In k (obj_keys o) ->
  obj_overwrite (obj_create_index o k n a) k b = obj_create_index o k n b.
Proof.
  induction o as [|[k' v'] rest IH]; simpl; intros Hnin.
  - now rewrite String.eqb_refl.
  - destruct (array_index k') as [m|]; [destruct (m <? n)%N|]; simpl;
      try now rewrite String.eqb_refl.
    destruct (k' =? k) eqn:E.
    + apply String.eqb_eq in E. exfalso. apply Hnin. now left.
    + f_equal. apply IH. intros Hin. apply Hnin. now right.
Qed.

(** Of two writes to a key, the second decides the value and the first the
    place. *)
Lemma obj_set_set (o : JsObject) (k : string) (a b : JsValue) :
  obj_set (obj_set o k a) k b = obj_set o k b.
Proof.
  assert (Hhas : obj_has (obj_set o k a) k = true).
  { apply obj_has_in, obj_keys_set_iff. now left. }
  unfold obj_set at 1. rewrite Hhas. unfold obj_set.
  destruct (obj_has o k) eqn:H.
  - apply obj_overwrite_overwrite.
  - apply obj_has_not_in in H. destruct (array_index k) as [n|].
    + now apply obj_overwrite_create.
    + now apply obj_overwrite_append.
Qed.



Section SoftDelete.

Context {DB : Type} (exec : Query -> DB -> Result Response * DB).

(** X6. When [setColumns(data)] writes primary columns, the update it
    awaits is scoped by the primary key as it was before the call, and once
    it has resolved [primaryKey] and [query] give the new values: a primary
    column in [data] has the value written, the others keep theirs. *)
Theorem primary_column_update (data : JsObject) (r r' : Row) (w w' : World DB) :
  setColumns exec data r w = (Ok tt, r', w') ->
  NoDup (obj_keys data) ->
  (forall k v, In (k, v) data -> v <> VUndefined) ->
  exists c key key',
    connection r = VConn c
    /\ primaryKey r = Ok key
    /\ issued w'
       = (issued w ++ [mkQuery c (tableName r) [SWhereObj key; SUpdate data]])%list
    /\ primaryKey r' = Ok key'
    /\ query r' = Ok (mkQuery c (tableName r) [SWhereObj key'])
    /\ (forall p v, In p (primaryCols r) -> In (p, v) data -> obj_get key' p = v)
    /\ (forall p, In p (primaryCols r) -> ~ In p (obj_keys data) ->
                  obj_get key' p = obj_get key p).
Proof.
  intros Hrun Hnd Hdef.
  destruct (setColumns_ok_inv exec data r r' w w' Hrun)
    as (Hall & -> & c & key & Hc & Hk & Hiss).
  set (r' := with_rowData r (obj_assign (rowData r) data)).
  assert (Hget : forall k v, In (k, v) data -> obj_get (rowData r') k = v).
  { intros k v Hin. simpl.
    rewrite obj_get_assign_in by (try assumption; now apply (in_obj_keys data k v)).
    now apply obj_get_in_nodup. }
  assert (Hcols : forall p, In p (primaryCols r') -> isColumn r' p = true).
  { intros p Hin. apply isColumn_defined.
    destruct (in_dec String.string_dec p (obj_keys data)) as [Hi|Hn].
    - apply in_map_iff in Hi. destruct Hi as ([k v] & Hfst & Hi).
      simpl in Hfst. subst k. rewrite (Hget p v Hi). now apply (Hdef p v).
    - simpl. rewrite obj_get_assign_other by exact Hn.
      now apply isColumn_defined, (primaryKey_ok_cols r key Hk). }
  destruct (primaryKey_loop_ok r' (primaryCols r') [] Hcols)
    as (key' & Hk' & _ & Hin' & _).
  destruct (primaryKey_loop_ok r (primaryCols r) [] (primaryKey_ok_cols r key Hk))
    as (key0 & Hk0 & _ & Hin0 & _).
  assert (key0 = key) by (unfold primaryKey in Hk; congruence). subst key0.
  exists c, key, key'.
  split; [exact Hc|]. split; [exact Hk|]. split; [exact Hiss|].
  split; [exact Hk'|]. split; [|split].
  - exact (query_ok r' c key' Hc Hk').
  - intros p v Hp Hin. rewrite (Hin' p Hp). now apply Hget.
  - intros p Hp Hn. rewrite (Hin' p Hp), (Hin0 p Hp). simpl.
    now apply obj_get_assign_other.
Qed.

(** X7. On a row that holds a connection, has its primary columns and has
    [timeDeletedCol], whatever value the column holds: when the update is
    executed successfully, [delete()] resolves and [isDeleted] is then
    true, [restore()] resolves and [isDeleted] is then false with
    [timeDeleted] [null]; either way every other column reads as before. *)
Theorem soft_delete_marks (r : Row) (w : World DB) (c : Connection) (key : JsObject) :
  connection r = VConn c ->
  primaryKey r = Ok key ->
  isColumn r (timeDeletedCol r) = true ->
  (forall resp d',
      exec (mkQuery c (tableName r)
              [SWhereObj key; SUpdate [(timeDeletedCol r, fn_now c)]]) (db w)
      = (Ok resp, d') ->
      exists r',
        delete exec r w
        = (Ok tt, r',
           mkWorld d' (issued w
             ++ [mkQuery c (tableName r)
                   [SWhereObj key; SUpdate [(timeDeletedCol r, fn_now c)]]]))
        /\ isDeleted r' = Ok true
        /\ (forall k, k <> timeDeletedCol r -> getColumn r' k = getColumn r k))
  /\ (forall resp d',
        exec (mkQuery c (tableName r)
                [SWhereObj key; SUpdate [(timeDeletedCol r, VNull)]]) (db w)
        = (Ok resp, d') ->
        exists r',
          restore exec r w
          = (Ok tt, r',
             mkWorld d' (issued w
               ++ [mkQuery c (tableName r)
                     [SWhereObj key; SUpdate [(timeDeletedCol r, VNull)]]]))
          /\ isDeleted r' = Ok false
          /\ timeDeleted r' = Ok VNull
          /\ (forall k, k <> timeDeletedCol r -> getColumn r' k = getColumn r k)).
Proof.
  intros Hc Hk Hcol.
  assert (Hall : forall v k, In k (obj_keys [(timeDeletedCol r, v)]) ->
                             isColumn r k = true).
  { intros v k [<-|[]]. exact Hcol. }
  assert (Hframe : forall v k, k <> timeDeletedCol r ->
            getColumn (with_rowData r (obj_assign (rowData r) [(timeDeletedCol r, v)])) k
            = getColumn r k).
  { intros v k Hne. unfold getColumn, isColumn. simpl.
    rewrite obj_get_set_other by congruence. reflexivity. }
  split; intros resp d' Hx.
  - unfold delete. rewrite Hc.
    rewrite (setColumns_resolved exec _ r w c key resp d' (Hall _) Hc Hk Hx).
    eexists. split; [reflexivity|]. split; [|apply Hframe].
    unfold isDeleted, timeDeleted, getColumn, isColumn. simpl.
    now rewrite obj_get_set_same.
  - unfold restore.
    rewrite (setColumns_resolved exec _ r w c key resp d' (Hall _) Hc Hk Hx).
    eexists. split; [reflexivity|].
    assert (Htd : timeDeleted
                    (with_rowData r (obj_assign (rowData r) [(timeDeletedCol r, VNull)]))
                  = Ok VNull).
    { unfold timeDeleted, getColumn, isColumn. simpl. now rewrite obj_get_set_same. }
    split; [|split; [exact Htd | apply Hframe]].
    unfold isDeleted. now rewrite Htd.
Qed.

(** X8. A [delete()] followed by a [restore()], both resolved: the row ends
    with [timeDeletedCol] [null] and everything else as it started, exactly
    as after a [restore()] alone, so a row that was not deleted comes back
    to what it was; two updates were awaited. *)
Theorem delete_then_restore (r r1 r2 : Row) (w w1 w2 : World DB) :
  delete exec r w = (Ok tt, r1, w1) ->
  restore exec r1 w1 = (Ok tt, r2, w2) ->
  isDeleted r1 = Ok true
  /\ r2 = with_rowData r (obj_set (rowData r) (timeDeletedCol r) VNull)
  /\ isDeleted r2 = Ok false
  /\ (obj_get (rowData r) (timeDeletedCol r) = VNull -> r2 = r)
  /\ length (issued w2) = (length (issued w) + 2)%nat.
Proof.
  intros Hdel Hres. unfold delete in Hdel.
  destruct (connection r) as [| | | | | | |c| |] eqn:Hc;
    try (injection Hdel as Hbad _ _; discriminate).
  destruct (setColumns_ok_inv exec _ r r1 w w1 Hdel)
    as (Hall1 & Hr1 & c1 & key1 & _ & _ & Hiss1).
  unfold restore in Hres.
  destruct (setColumns_ok_inv exec _ r1 r2 w1 w2 Hres)
    as (_ & Hr2 & c2 & key2 & _ & _ & Hiss2).
  assert (Hcol : isColumn r (timeDeletedCol r) = true) by (apply Hall1; now left).
  assert (Hr2' : r2 = with_rowData r (obj_set (rowData r) (timeDeletedCol r) VNull)).
  { rewrite Hr2, Hr1. unfold with_rowData. simpl. now rewrite obj_set_set. }
  split; [|split; [|split; [|split]]].
  - rewrite Hr1. unfold isDeleted, timeDeleted, getColumn, isColumn. simpl.
    now rewrite obj_get_set_same.
  - exact Hr2'.
  - rewrite Hr2'. unfold isDeleted, timeDeleted, getColumn, isColumn. simpl.
    now rewrite obj_get_set_same.
  - intros Hnull. rewrite Hr2', <- Hnull, obj_set_same_value.
    + apply with_rowData_same.
    + now apply obj_get_null_own.
  - rewrite Hiss2, Hiss1. rewrite !length_app. simpl. lia.
Qed.

(** X9. [setColumns({})] passes the check, there being no key, and still
    awaits an update, with no column in it, scoped to the primary key; when
    that update is executed successfully the row is left as it was. A
    missing primary column makes it fail before anything is awaited. *)
Theorem setColumns_empty (r : Row) (w : World DB) :
  (forall c key,
      connection r = VConn c -> primaryKey r = Ok key ->
      issued (snd (setColumns exec [] r w))
      = (issued w ++ [mkQuery c (tableName r) [SWhereObj key; SUpdate []]])%list
      /\ forall resp d',
           exec (mkQuery c (tableName r) [SWhereObj key; SUpdate []]) (db w)
           = (Ok resp, d') ->
           setColumns exec [] r w
           = (Ok tt, r,
              mkWorld d' (issued w
                          ++ [mkQuery c (tableName r) [SWhereObj key; SUpdate []]])))
  /\ (forall p, In p (primaryCols r) -> isColumn r p = false ->
                exists e, setColumns exec [] r w = (Err e, r, w)).
Proof.
  split.
  - intros c key Hc Hk. split.
    + unfold setColumns. simpl. rewrite (query_ok r c key Hc Hk).
      unfold await, chain. simpl.
      destruct (exec _ (db w)) as [[resp|e] d']; reflexivity.
    + intros resp d' Hx.
      rewrite (setColumns_resolved exec [] r w c key resp d'); try assumption.
      * simpl. now rewrite with_rowData_same.
      * intros k [].
  - intros p Hin Hp. destruct (query_missing r p Hin Hp) as (e & Hq).
    exists e. unfold setColumns. simpl. now rewrite Hq.
Qed.

End SoftDelete.

(* ================================================================== *)
(** * Further properties of the select helpers *)

Module SelectFacts.

Import Mem.

Lemma matches_app (a b : list Stmt) (row : JsObject) :
  matches (a ++ b) row = matches a row && matches b row.
Proof. unfold matches. apply forallb_app. Qed.

Lemma limit_of_app (a b : list Stmt) :
  forall acc, limit_of (a ++ b) acc = limit_of b (limit_of a acc).
Proof.
  induction a as [|s a IH]; intros acc; simpl; [reflexivity|].
  destruct s; apply IH.
Qed.

Lemma offset_of_app (a b : list Stmt) :
  forall acc, offset_of (a ++ b) acc = offset_of b (offset_of a acc).
Proof.
  induction a as [|s a IH]; intros acc; simpl; [reflexivity|].
  destruct s; apply IH.
Qed.

Lemma filter_all {A : Type} (P : A -> bool) (l : list A) :
  (forall x, In x l -> P x = true) -> filter P l = l.
Proof.
  induction l as [|x l IH]; simpl; intros Hall; [reflexivity|].
  rewrite (Hall x) by now left. f_equal. apply IH. intros y Hy. apply Hall. now right.
Qed.

Lemma firstn_then_next {A : Type} (a b : nat) (l : list A) :
  (firstn a l ++ firstn b (skipn a l))%list = firstn (a + b) l.
Proof.
  revert l. induction a as [|a IH]; intros l; simpl; [reflexivity|].
  destruct l as [|x l]; simpl; [now rewrite firstn_nil|].
  f_equal. apply IH.
Qed.

Lemma firstn_length_le {A : Type} (n : nat) (l : list A) :
  (length (firstn n l) <= n)%nat.
Proof.
  revert l. induction n as [|n IH]; intros [|x l]; simpl; try lia.
  specialize (IH l). lia.
Qed.

(** The statements of an unpaginated [findAll] select the visible records
    and set no window. *)
Lemma base_stmts (o : SelectOpts) :
  qStmts (findAll_build (of_select o)) = (where_part o ++ soft_delete_part o)%list.
Proof. rewrite findAll_build_stmts. simpl. now rewrite app_nil_r. Qed.

Lemma base_matches (o : SelectOpts) (row : JsObject) :
  matches (qStmts (findAll_build (of_select o))) row = visible o row.
Proof.
  rewrite base_stmts, matches_app.
  unfold visible, passes_where, where_part, soft_delete_part, matches.
  destruct (so_where o) as [f|], (so_includeDeleted o) as [[|]|]; simpl;
    rewrite ?andb_true_r; reflexivity.
Qed.

Lemma base_window (o : SelectOpts) :
  limit_of (qStmts (findAll_build (of_select o))) None = None
  /\ offset_of (qStmts (findAll_build (of_select o))) None = None.
Proof.
  rewrite base_stmts. unfold where_part, soft_delete_part.
  destruct (so_where o) as [f|], (so_includeDeleted o) as [[|]|]; split; reflexivity.
Qed.

Lemma paged_stmts (o : SelectOpts) (p l : Z) :
  qStmts (findAll_build (page_opts o p l))
  = (qStmts (findAll_build (of_select o)) ++ [SLimit l; SOffset ((p - 1) * l)%Z])%list.
Proof.
  rewrite base_stmts, findAll_build_stmts. simpl. now rewrite app_assoc.
Qed.

Lemma findAll_mem_all (o : SelectOpts) (rows : list JsObject) :
  so_before o = None ->
  fst (findAll exec (of_select o) (world (so_tableName o) rows))
  = Ok (map (wrap_row (so_conn o) (so_tableName o)) (filter (visible o) rows)).
Proof.
  intros Hbef.
  pose proof (MemFacts.findAll_mem (of_select o) rows
                (findAll_prepare_select o Hbef)) as Hrun.
  simpl in Hrun. rewrite Hrun. do 2 f_equal.
  unfold select_rows, window. destruct (base_window o) as [-> ->].
  apply filter_ext. intros row. apply base_matches.
Qed.

Lemma findAll_mem_page (o : SelectOpts) (p l : Z) (rows : list JsObject) :
  so_before o = None ->
  (1 <= p)%Z ->
  (0 <= l)%Z ->
  fst (findAll exec (page_opts o p l) (world (so_tableName o) rows))
  = Ok (map (wrap_row (so_conn o) (so_tableName o))
          (firstn (Z.to_nat l)
             (skipn (Z.to_nat ((p - 1) * l)) (filter (visible o) rows)))).
Proof.
  intros Hbef Hp Hl.
  pose proof (MemFacts.findAll_mem (page_opts o p l) rows
                (findAll_prepare_page o p l Hbef Hp Hl)) as Hrun.
  change (fa_select (page_opts o p l)) with o in Hrun. rewrite Hrun. do 2 f_equal.
  unfold select_rows, window. rewrite paged_stmts.
  rewrite limit_of_app, offset_of_app. destruct (base_window o) as [-> ->]. simpl.
  do 2 f_equal. apply filter_ext. intros row.
  rewrite matches_app, base_matches. simpl. apply andb_true_r.
Qed.

Lemma countAll_stmts_base (o : SelectOpts) (cb : option CountBy) :
  qStmts (countAll_query (mkCountAllOpts o cb))
  = (qStmts (findAll_build (of_select o)) ++ [SCount "count" (counted_columns cb)])%list.
Proof.
  rewrite base_stmts, countAll_query_stmts. simpl. now rewrite app_assoc.
Qed.

Lemma countAll_mem_visible (o : SelectOpts) (cb : option CountBy)
    (rows : list JsObject) :
  fst (countAll exec (mkCountAllOpts o cb) (world (so_tableName o) rows))
  = Ok (VNum (Z.of_nat (length (filter
          (fun row => forallb (fun c => negb (is_null (obj_own row c)))
                        (counted_columns cb))
          (filter (visible o) rows))))).
Proof.
  pose proof (MemFacts.countAll_mem (mkCountAllOpts o cb) rows) as Hrun.
  change (ca_select (mkCountAllOpts o cb)) with o in Hrun.
  change (ca_countBy (mkCountAllOpts o cb)) with cb in Hrun.
  rewrite Hrun. unfold count_rows, counted_columns. do 5 f_equal.
  rewrite countAll_stmts_base. apply filter_ext. intros row.
  rewrite matches_app, base_matches. simpl. apply andb_true_r.
Qed.

End SelectFacts.

Section MoreSelects.

Context {DB : Type} (exec : Query -> DB -> Result Response * DB).

Lemma findAll_ok_inv (opts : FindAllOpts) (w w' : World DB) (result : list Row) :
  findAll exec opts w = (Ok result, w') ->
  exists rows,
    result = map (wrap_row (so_conn (fa_select opts)) (so_tableName (fa_select opts))) rows.
Proof.
  unfold findAll, await.
  destruct (findAll_prepare opts) as [q|e0]; [|discriminate].
  destruct (exec q (db w)) as [[[rows|n]|e] d'];
    intros H; try discriminate.
  injection H as <- _. now exists rows.
Qed.

(** X10. Whatever options [findAll] is given, [includeDeletedCol] among
    them, the rows it returns are built with the default column names:
    [idCol] is [id], [timeDeletedCol] is [time_deleted] and the primary key
    is [[id]]. So a returned row whose record has no [time_deleted] cannot
    be deleted or restored, and one whose record has no [id] cannot be
    written at all; each such call fails before anything is awaited. *)
Theorem findAll_rows_default_columns (opts : FindAllOpts) (w w' : World DB)
    (result : list Row) :
  findAll exec opts w = (Ok result, w') ->
  forall r, In r result ->
    idCol r = "id"
    /\ timeCreatedCol r = "time_created"
    /\ timeUpdatedCol r = "time_updated"
    /\ timeDeletedCol r = "time_deleted"
    /\ primaryCols r = ["id"]
    /\ (obj_get (rowData r) "time_deleted" = VUndefined ->
        forall w2,
          restore exec r w2
          = (Err (JsError (column_not_found "time_deleted"
                             (so_tableName (fa_select opts)))), r, w2)
          /\ delete exec r w2
             = (Err (JsError (column_not_found "time_deleted"
                                (so_tableName (fa_select opts)))), r, w2))
    /\ (obj_get (rowData r) "id" = VUndefined ->
        forall data w2,
          (exists e, setColumns exec data r w2 = (Err e, r, w2))
          /\ (exists e, deletePermanently exec r w2 = (Err e, r, w2))).
Proof.
  intros Hrun r Hin.
  destruct (findAll_ok_inv opts w w' result Hrun) as (rows & ->).
  apply in_map_iff in Hin. destruct Hin as (rd & <- & _).
  repeat (split; [reflexivity|]). split.
  - intros Hmiss w2.
    assert (Hcol : isColumn (wrap_row (so_conn (fa_select opts))
                               (so_tableName (fa_select opts)) rd) "time_deleted"
                   = false) by now apply isColumn_missing.
    split.
    + unfold restore. apply setColumns_invalid.
      cbn [check_columns obj_keys map fst].
      change (timeDeletedCol (wrap_row (so_conn (fa_select opts))
                                (so_tableName (fa_select opts)) rd))
        with "time_deleted".
      now rewrite Hcol.
    + unfold delete. cbn [connection conn wrap_row new_Row].
      apply setColumns_invalid. cbn [check_columns obj_keys map fst].
      change (timeDeletedCol (wrap_row (so_conn (fa_select opts))
                                (so_tableName (fa_select opts)) rd))
        with "time_deleted".
      now rewrite Hcol.
  - intros Hmiss data w2.
    assert (Hcol : isColumn (wrap_row (so_conn (fa_select opts))
                               (so_tableName (fa_select opts)) rd) "id" = false)
      by now apply isColumn_missing.
    destruct (query_missing (wrap_row (so_conn (fa_select opts))
                               (so_tableName (fa_select opts)) rd) "id")
      as (e & Hq); [now left | exact Hcol |].
    split.
    + unfold setColumns.
      destruct (check_columns _ (obj_keys data)) as [u|e']; [|now eexists].
      rewrite Hq. now eexists.
    + unfold deletePermanently. rewrite Hq. now eexists.
Qed.

(** X13. [findAll] fails in one of two ways. What is thrown before its
    [await], by the builder refusing a negative offset or by the [before]
    hook, ends the call with that error and nothing is awaited. Otherwise
    it awaits exactly one query and fails only as that query does: with
    the query's own error, or with a type error when the query resolves to
    something that is not an array. [countAll] always awaits exactly one
    query and fails as that query does, an empty array included, since it
    reads [count] off the first record. *)
Theorem select_helpers_failures (opts : FindAllOpts) (copts : CountAllOpts)
    (w : World DB) :
  (forall e, findAll_prepare opts = Err e -> findAll exec opts w = (Err e, w))
  /\ (forall p, fa_pagination opts = Some p ->
                ((default (page p) 1 - 1) * default (limit p) 20 < 0)%Z ->
                findAll exec opts w
                = (Err (JsError "A non-negative integer must be provided to offset."),
                   w))
  /\ (forall hook e,
        so_before (fa_select opts) = Some hook ->
        (forall p, fa_pagination opts = Some p ->
                   (0 <= (default (page p) 1 - 1) * default (limit p) 20)%Z) ->
        hook (findAll_build opts) = Err e ->
        findAll exec opts w = (Err e, w))
  /\ (forall q,
        findAll_prepare opts = Ok q ->
        length (issued (snd (findAll exec opts w))) = S (length (issued w))
        /\ forall e,
             fst (findAll exec opts w) = Err e <->
             fst (exec q (db w)) = Err e
             \/ (e = TypeError /\ exists n, fst (exec q (db w)) = Ok (RespNum n)))
  /\ length (issued (snd (countAll exec copts w))) = S (length (issued w))
  /\ (forall e,
        fst (countAll exec copts w) = Err e <->
        fst (exec (countAll_query copts) (db w)) = Err e
        \/ (e = TypeError
            /\ (fst (exec (countAll_query copts) (db w)) = Ok (RespRows [])
                \/ exists n, fst (exec (countAll_query copts) (db w)) = Ok (RespNum n)))).
Proof.
  split; [|split; [|split; [|split; [|split]]]].
  - intros e He. now apply findAll_thrown.
  - intros p Hp Hneg. apply findAll_thrown.
    exact (findAll_prepare_refused opts p Hp Hneg).
  - intros hook e Hbef Hoff Hhook. apply findAll_thrown.
    rewrite (findAll_prepare_accepted opts Hoff), Hbef. exact Hhook.
  - intros q Hq. split.
    + rewrite (findAll_issued exec opts w q Hq), length_app. simpl. lia.
    + intros e. unfold findAll, await. rewrite Hq.
      destruct (exec q (db w)) as [[[rows|n]|e'] d']; simpl; split.
      * discriminate.
      * intros [H|(_ & n & H)]; discriminate.
      * intros H. injection H as <-. right. split; [reflexivity|]. now exists n.
      * intros [H|(-> & _)]; [discriminate | reflexivity].
      * intros H. injection H as <-. now left.
      * intros [H|(-> & n & H)]; [injection H as <-; reflexivity | discriminate].
  - rewrite countAll_issued, length_app. simpl. lia.
  - intros e. unfold countAll, await.
    destruct (exec (countAll_query copts) (db w)) as [[[[|first rest]|n]|e'] d'];
      simpl; split.
    + intros H. injection H as <-. right. split; [reflexivity|]. now left.
    + intros [H|(-> & _)]; [discriminate | reflexivity].
    + discriminate.
    + intros [H|(_ & [H|(n & H)])]; discriminate.
    + intros H. injection H as <-. right. split; [reflexivity|]. right. now exists n.
    + intros [H|(-> & _)]; [discriminate | reflexivity].
    + intros H. injection H as <-. now left.
    + intros [H|(-> & [H|(n & H)])];
        [injection H as <-; reflexivity | discriminate | discriminate].
Qed.

End MoreSelects.

(** X11. [countAll] composes its filters as [findAll] does: its query is
    that of an unpaginated [findAll] with the same options, its [before]
    hook left aside, followed by the count. On the in-memory connection,
    without a hook, it never counts more records than that [findAll]
    returns, and counts exactly as many when no record has a null counted
    column. *)
Theorem countAll_agrees_with_findAll (o : SelectOpts) (cb : option CountBy)
    (rows : list JsObject) :
  qStmts (countAll_query (mkCountAllOpts o cb))
  = (qStmts (findAll_build (of_select o)) ++ [SCount "count" (counted_columns cb)])%list
  /\ (so_before o = None ->
      exists result n,
        fst (findAll Mem.exec (of_select o) (Mem.world (so_tableName o) rows)) = Ok result
        /\ fst (countAll Mem.exec (mkCountAllOpts o cb) (Mem.world (so_tableName o) rows))
           = Ok (VNum (Z.of_nat n))
        /\ (n <= length result)%nat
        /\ ((forall row c, In row rows -> In c (counted_columns cb) ->
                           Mem.is_null (obj_own row c) = false) ->
            n = length result)).
Proof.
  split; [apply SelectFacts.countAll_stmts_base|].
  intros Hbef. eexists. eexists.
  split; [now apply SelectFacts.findAll_mem_all|].
  split; [apply SelectFacts.countAll_mem_visible|].
  rewrite length_map. split.
  - apply filter_length_le.
  - intros Hall. f_equal. apply SelectFacts.filter_all.
    intros row Hin. apply filter_In in Hin. destruct Hin as [Hin _].
    apply forallb_forall. intros c Hc. now rewrite (Hall row c Hin Hc).
Qed.

(** X12. On the in-memory connection, without a hook, for a page number of
    at least 1 and a limit that is not negative: page [p] is the slice of
    [limit] rows of the unpaginated result that starts after
    [(page - 1) * limit] rows, it has at most [limit] rows, and pages [p]
    and [p + 1] put end to end are the slice of twice the length, so
    consecutive pages neither overlap nor leave a gap. *)
Theorem findAll_pages (o : SelectOpts) (rows : list JsObject) (p l : Z) :
  so_before o = None ->
  (1 <= p)%Z ->
  (0 <= l)%Z ->
  exists all pg pg',
    fst (findAll Mem.exec (of_select o) (Mem.world (so_tableName o) rows)) = Ok all
    /\ fst (findAll Mem.exec (page_opts o p l) (Mem.world (so_tableName o) rows)) = Ok pg
    /\ fst (findAll Mem.exec (page_opts o (p + 1) l) (Mem.world (so_tableName o) rows))
       = Ok pg'
    /\ pg = firstn (Z.to_nat l) (skipn (Z.to_nat ((p - 1) * l)) all)
    /\ (pg ++ pg')%list
       = firstn (Z.to_nat l + Z.to_nat l) (skipn (Z.to_nat ((p - 1) * l)) all)
    /\ (length pg <= Z.to_nat l)%nat.
Proof.
  intros Hbef Hp Hl. eexists. eexists. eexists.
  split; [now apply SelectFacts.findAll_mem_all|].
  split; [now apply SelectFacts.findAll_mem_page|].
  split; [apply SelectFacts.findAll_mem_page; [exact Hbef | lia | exact Hl]|].
  rewrite !skipn_map, !firstn_map.
  split; [reflexivity|]. split.
  - rewrite <- map_app. f_equal.
    replace (Z.to_nat ((p + 1 - 1) * l))
      with (Z.to_nat l + Z.to_nat ((p - 1) * l))%nat.
    + rewrite <- skipn_skipn. apply SelectFacts.firstn_then_next.
    + replace ((p + 1 - 1) * l)%Z with (l + (p - 1) * l)%Z by lia.
      rewrite Z2Nat.inj_add; [reflexivity | lia | nia].
  - rewrite length_map. apply SelectFacts.firstn_length_le.
Qed.


(* ================================================================== *)
(** * The further properties on the [kansen] table *)

(** The hard-delete test: once [z23] is deleted for good, [find] on its key
    gives [null]; the row object is as it was. *)
Lemma deletePermanently_spec_witness :
  exists w',
    deletePermanently Mem.exec z23Row kansen_world = (Ok tt, z23Row, w')
    /\ fst (find Mem.exec (select_opts (Some (column_is "key" (VStr "z23")))) w')
       = Ok Null.
Proof.
  eexists. split.
  - rewrite (proj1 (proj2 (deletePermanently_spec Mem.exec z23Row kansen_world))
               testConn [("id", VNum 3)] eq_refl eq_refl).
    reflexivity.
  - reflexivity.
Defined.


(** Queries follow the connection: the other one, then the first again. *)
Lemma query_follows_connection_witness :
  query (set_connection testRow (VConn otherConn))
  = Ok (mkQuery otherConn "kansen" [SWhereObj [("id", VNum 252)]])
  /\ query (set_connection (set_connection testRow (VConn otherConn)) VNull)
     = Ok (mkQuery testConn "kansen" [SWhereObj [("id", VNum 252)]]).
Proof.
  split.
  - exact (proj1 (proj2 (proj2 (proj2 (query_follows_connection Mem.exec
             testRow (VConn otherConn)))) otherConn eq_refl)).
  - exact (proj1 (proj2 (proj2 (proj2 (query_follows_connection Mem.exec
             (set_connection testRow (VConn otherConn)) VNull))) testConn eq_refl)).
Defined.

Lemma setColumns_readback_witness :
  getColumn
    (snd (fst (setColumns Mem.exec [("key", VStr "z23_retrofit"); ("score", VNum 40)]
                 z23Row kansen_world))) "score" = Ok (VNum 40)
  /\ getColumn
       (snd (fst (setColumns Mem.exec [("key", VStr "z23_retrofit"); ("score", VNum 40)]
                    z23Row kansen_world))) "name" = getColumn z23Row "name"
  /\ obj_keys
       (rowData
          (snd (fst (setColumns Mem.exec
                       [("key", VStr "z23_retrofit"); ("score", VNum 40)]
                       z23Row kansen_world))))
     = ["id"; "time_created"; "time_updated"; "time_deleted"; "key"; "name"; "score"].
Proof.
  assert (Hnd : NoDup (obj_keys [("key", VStr "z23_retrofit"); ("score", VNum 40)])).
  { repeat constructor; simpl; intuition discriminate. }
  assert (Hnp : ~ In "__proto__"
                  (obj_keys [("key", VStr "z23_retrofit"); ("score", VNum 40)])).
  { simpl. intuition discriminate. }
  pose proof (setColumns_readback Mem.exec
                [("key", VStr "z23_retrofit"); ("score", VNum 40)] z23Row
                (snd (fst (setColumns Mem.exec
                             [("key", VStr "z23_retrofit"); ("score", VNum 40)]
                             z23Row kansen_world)))
                kansen_world
                (snd (setColumns Mem.exec
                        [("key", VStr "z23_retrofit"); ("score", VNum 40)]
                        z23Row kansen_world))
                eq_refl Hnd Hnp) as (Hin & _ & Hout & _ & Hkeys).
  split; [|split].
  - apply (Hin "score" (VNum 40)); [simpl; intuition | discriminate].
  - apply (Hout "name"). simpl. intuition discriminate.
  - rewrite Hkeys; [reflexivity|].
    intros k [<-|[<-|[]]]; simpl; intuition.
Defined.

(** An update that gives [name] the value [undefined] beside a new score
    gets through, and [name] is then no column of the row. *)
Lemma undefined_write_loses_column_witness :
  fst (fst (setColumns Checked.exec [("name", VUndefined); ("score", VNum 40)]
              z23Row kansen_world)) = Ok tt
  /\ setColumn Checked.exec "name" (VStr "Z23")
       (snd (fst (setColumns Checked.exec [("name", VUndefined); ("score", VNum 40)]
                    z23Row kansen_world)))
       kansen_world
     = (Err (JsError "Column 'name' does not exist for table kansen"),
        snd (fst (setColumns Checked.exec [("name", VUndefined); ("score", VNum 40)]
                    z23Row kansen_world)),
        kansen_world).
Proof.
  split; [reflexivity|].
  assert (Hnd : NoDup (obj_keys [("name", VUndefined); ("score", VNum 40)])).
  { repeat constructor; simpl; intuition discriminate. }
  exact (proj1 (proj2 (proj2 (proj2 (undefined_write_loses_column Checked.exec
           [("name", VUndefined); ("score", VNum 40)] "name" z23Row
           (snd (fst (setColumns Checked.exec [("name", VUndefined); ("score", VNum 40)]
                        z23Row kansen_world)))
           kansen_world
           (snd (setColumns Checked.exec [("name", VUndefined); ("score", VNum 40)]
                   z23Row kansen_world))
           eq_refl Hnd (or_introl eq_refl)
           ltac:(discriminate)))))
           (VStr "Z23") kansen_world).
Defined.

(** The custom-primary-key test: the row keyed on [key] is renamed. *)
Lemma primary_column_update_witness :
  exists key key',
    primaryKey leipzigByKeyRow = Ok key
    /\ obj_get key "key" = VStr "leipzig"
    /\ primaryKey
         (snd (fst (setColumns Mem.exec
                      [("key", VStr "leipzig_retrofit"); ("score", VNum 30)]
                      leipzigByKeyRow kansen_world))) = Ok key'
    /\ obj_get key' "key" = VStr "leipzig_retrofit".
Proof.
  assert (Hnd : NoDup (obj_keys [("key", VStr "leipzig_retrofit"); ("score", VNum 30)])).
  { repeat constructor; simpl; intuition discriminate. }
  destruct (primary_column_update Mem.exec
              [("key", VStr "leipzig_retrofit"); ("score", VNum 30)] leipzigByKeyRow
              (snd (fst (setColumns Mem.exec
                           [("key", VStr "leipzig_retrofit"); ("score", VNum 30)]
                           leipzigByKeyRow kansen_world)))
              kansen_world
              (snd (setColumns Mem.exec
                      [("key", VStr "leipzig_retrofit"); ("score", VNum 30)]
                      leipzigByKeyRow kansen_world))
              eq_refl Hnd)
    as (c & key & key' & _ & Hk & _ & Hk' & _ & Hnew & _).
  - intros k v [H|[H|[]]]; injection H as <- <-; discriminate.
  - exists key, key'. split; [exact Hk|]. split; [|split; [exact Hk'|]].
    + assert (Hkey : key = [("key", VStr "leipzig")])
        by (cut (Ok key = Ok [("key", VStr "leipzig")]);
            [congruence | rewrite <- Hk; reflexivity]).
      now rewrite Hkey.
    + apply (Hnew "key" (VStr "leipzig_retrofit")); simpl; intuition.
Defined.

(** The soft-delete test: [delete()] on a live row, [restore()] on a
    deleted one. *)
Lemma soft_delete_marks_witness :
  (exists r' w', delete Mem.exec z23Row kansen_world = (Ok tt, r', w')
                 /\ isDeleted r' = Ok true)
  /\ (exists r' w', restore Mem.exec karlsruheDeletedRow kansen_deleted_world
                    = (Ok tt, r', w')
                    /\ isDeleted r' = Ok false).
Proof.
  split.
  - destruct (proj1 (soft_delete_marks Mem.exec z23Row kansen_world testConn
                       [("id", VNum 3)] eq_refl eq_refl eq_refl)
                (RespNum 1)
                (snd (Mem.exec (mkQuery testConn "kansen"
                        [SWhereObj [("id", VNum 3)];
                         SUpdate [("time_deleted", fn_now testConn)]])
                        (db kansen_world))))
      as (r' & Hrun & Hdel & _); [reflexivity|].
    exists r'. eexists. split; [exact Hrun | exact Hdel].
  - destruct (proj2 (soft_delete_marks Mem.exec karlsruheDeletedRow
                       kansen_deleted_world testConn
                       [("id", VNum 1)] eq_refl eq_refl eq_refl)
                (RespNum 1)
                (snd (Mem.exec (mkQuery testConn "kansen"
                        [SWhereObj [("id", VNum 1)];
                         SUpdate [("time_deleted", VNull)]])
                        (db kansen_deleted_world))))
      as (r' & Hrun & Hdel & _); [reflexivity|].
    exists r'. eexists. split; [exact Hrun | exact Hdel].
Defined.

Lemma delete_then_restore_witness :
  fst (fst (delete Mem.exec z23Row kansen_world)) = Ok tt
  /\ snd (fst (restore Mem.exec
                 (snd (fst (delete Mem.exec z23Row kansen_world)))
                 (snd (delete Mem.exec z23Row kansen_world)))) = z23Row.
Proof.
  split; [reflexivity|].
  apply (proj1 (proj2 (proj2 (proj2 (delete_then_restore Mem.exec z23Row
           (snd (fst (delete Mem.exec z23Row kansen_world)))
           (snd (fst (restore Mem.exec
                        (snd (fst (delete Mem.exec z23Row kansen_world)))
                        (snd (delete Mem.exec z23Row kansen_world)))))
           kansen_world
           (snd (delete Mem.exec z23Row kansen_world))
           (snd (restore Mem.exec
                   (snd (fst (delete Mem.exec z23Row kansen_world)))
                   (snd (delete Mem.exec z23Row kansen_world))))
           eq_refl eq_refl))))).
  reflexivity.
Defined.

Lemma setColumns_empty_witness :
  exists w',
    setColumns Mem.exec [] z23Row kansen_world = (Ok tt, z23Row, w')
    /\ issued w' = [mkQuery testConn "kansen" [SWhereObj [("id", VNum 3)]; SUpdate []]].
Proof.
  eexists. split.
  - apply (proj2 (proj1 (setColumns_empty Mem.exec z23Row kansen_world)
                    testConn [("id", VNum 3)] eq_refl eq_refl) (RespNum 1)).
    reflexivity.
  - reflexivity.
Defined.

(** A table whose soft-delete column is [removed_at]: the row [findAll]
    returns still looks for [time_deleted]. *)
Lemma findAll_rows_default_columns_witness :
  exists r w',
    findAll Mem.exec (of_select removed_at_opts) removed_at_world = (Ok [r], w')
    /\ timeDeletedCol r = "time_deleted"
    /\ restore Mem.exec r removed_at_world
       = (Err (JsError (column_not_found "time_deleted" "kansen")), r, removed_at_world).
Proof.
  eexists. eexists. split; [reflexivity|].
  destruct (findAll_rows_default_columns Mem.exec (of_select removed_at_opts)
              removed_at_world _ _ eq_refl
              (wrap_row testConn "kansen"
                 [("id", VNum 1); ("removed_at", VNull); ("name", VStr "Karlsruhe")]))
    as (_ & _ & _ & Htd & _ & Hres & _); [now left|].
  split; [exact Htd|]. exact (proj1 (Hres eq_refl removed_at_world)).
Defined.

(** A table that is not there, a hook that throws, and page 0. *)
Lemma select_helpers_failures_witness :
  fst (findAll Mem.exec (of_select (select_opts None)) (Mem.world "ghost" []))
  = Err (Rejected "unknown table")
  /\ findAll Mem.exec (of_select throwing_opts) kansen_world
     = (Err (JsError "before failed"), kansen_world)
  /\ findAll Mem.exec (page_opts (select_opts None) 0 4) kansen_world
     = (Err (JsError "A non-negative integer must be provided to offset."),
        kansen_world).
Proof.
  split; [|split].
  - apply (proj2 (proj1 (proj2 (proj2 (proj2 (select_helpers_failures Mem.exec
             (of_select (select_opts None))
             {| ca_select := select_opts None; ca_countBy := None |}
             (Mem.world "ghost" [])))))
             (mkQuery testConn "kansen" [SWhereNull "time_deleted"]) eq_refl)).
    left. reflexivity.
  - apply (proj1 (select_helpers_failures Mem.exec (of_select throwing_opts)
             {| ca_select := select_opts None; ca_countBy := None |} kansen_world)).
    reflexivity.
  - apply (proj1 (proj2 (select_helpers_failures Mem.exec
             (page_opts (select_opts None) 0 4)
             {| ca_select := select_opts None; ca_countBy := None |} kansen_world))
             {| page := Some 0%Z; limit := Some 4%Z |} eq_refl).
    reflexivity.
Defined.

(** The count test: four records score at least 30, and [findAll] returns
    as many. *)
Lemma countAll_agrees_with_findAll_witness :
  exists result,
    fst (findAll Mem.exec (of_select (select_opts (Some (score_at_least 30))))
           kansen_world) = Ok result
    /\ fst (countAll Mem.exec
              {| ca_select := select_opts (Some (score_at_least 30)); ca_countBy := None |}
              kansen_world)
       = Ok (VNum (Z.of_nat (length result))).
Proof.
  destruct (proj2 (countAll_agrees_with_findAll
                     (select_opts (Some (score_at_least 30))) None kansenTable) eq_refl)
    as (result & n & Hf & Hc & _ & Heq).
  exists result. split; [exact Hf|]. rewrite <- Heq; [exact Hc|].
  intros row c Hrow [<-|[]]. simpl in Hrow.
  repeat (destruct Hrow as [<-|Hrow]; [reflexivity|]). contradiction.
Defined.

(** The pagination test: pages 1 and 2 of four records. *)
Lemma findAll_pages_witness :
  exists all pg pg',
    fst (findAll Mem.exec (of_select (select_opts None)) kansen_world) = Ok all
    /\ fst (findAll Mem.exec (page_opts (select_opts None) 1 4) kansen_world) = Ok pg
    /\ fst (findAll Mem.exec (page_opts (select_opts None) 2 4) kansen_world) = Ok pg'
    /\ (pg ++ pg')%list = firstn 8 all
    /\ (length pg <= 4)%nat.
Proof.
  destruct (findAll_pages (select_opts None) kansenTable 1 4 eq_refl)
    as (all & pg & pg' & Hall & Hpg & Hpg' & _ & Happ & Hlen); [lia | lia |].
  exists all, pg, pg'. repeat split; assumption.
Defined.

